(** * wdio-spec-reporter: a shallow embedding of [lib/reporter.js]

    The reporter is a JavaScript class [SpecReporter] whose constructor
    registers one handler per lifecycle event and whose methods build the
    text blocks of the report.  The object's fields are modelled as a
    record, every method as a function in a small state-and-exception
    monad (a JavaScript [throw] does not roll the object back, so a
    computation always returns the state it reached).  The base reporter
    (its colour function, its "ok" glyph, its statistics object and its
    epilogue) is a record handed to every method, and the duration
    humanizer is the variable of a section. *)

From Stdlib Require Import ZArith Lia.

From stdpp Require Import base option list strings pretty gmap fin_maps.

Open Scope string_scope.

Open Scope Z_scope.

(** ** JavaScript values used by the reporter *)

Module JS.

(** A number that is used as a counter.  Integer values are kept as [Z]
    (exact for magnitudes below 2^53, which no counter of a run reaches);
    [NaN] is what [++] and [--] produce on a missing property. *)
Inductive num := Num (z : Z) | NaN.

Global Instance num_eq_dec : EqDecision num.
Proof. solve_decision. Defined.

(** [ToNumber] of the value found under a key: a missing key reads as
    [undefined], which converts to [NaN]. *)
Definition to_number (v : option num) : num :=
  match v with Some n => n | None => NaN end.

Definition incr (n : num) : num :=
  match n with Num z => Num (z + 1) | NaN => NaN end.

Definition decr (n : num) : num :=
  match n with Num z => Num (z - 1) | NaN => NaN end.

(** The errors the modelled code can raise. *)
Inductive error := TypeError | RangeError.

Inductive completion (A : Type) :=
  | Normal (a : A)
  | Throw (e : error).

Global Arguments Normal {A} a.

Global Arguments Throw {A} e.

(** A string-valued property that may be missing: [None] is [undefined]. *)
Abbreviation value := (option string).

(** Truthiness of such a value: [undefined] and the empty string are falsy. *)
Definition truthy (v : value) : bool :=
  match v with
  | Some s => negb (String.eqb s "")
  | None => false
  end.

(** [a || b] *)
Definition or (a b : value) : value := if truthy a then a else b.

(** [ToString], as string concatenation and template literals apply it. *)
Definition to_string (v : value) : string :=
  match v with Some s => s | None => "undefined" end.

(** [Number.prototype.toString] on an integer. *)
Definition of_Z (z : Z) : string := pretty z.

(** [Array.prototype.join]. *)
Fixpoint join (sep : string) (l : list string) : string :=
  match l with
  | [] => ""
  | [x] => x
  | x :: l' => x +:+ sep +:+ join sep l'
  end.

(** [Array(n).join(sep)]: [Array(n)] needs an integer length in
    [0, 2^32 - 1] and raises a RangeError otherwise; its [n] holes are
    joined as empty strings. *)
Definition array_join (n : num) (sep : string) : completion string :=
  match n with
  | Num z =>
      if (0 <=? z) && (z <? 2 ^ 32)
      then Normal (join sep (replicate (Z.to_nat z) ""))
      else Throw RangeError
  | NaN => Throw RangeError
  end.

(** White space removed by [String.prototype.trim], within ASCII. *)
Definition is_space (c : Ascii.ascii) : bool :=
  let n := Ascii.nat_of_ascii c in
  ((9 <=? n) && (n <=? 13))%nat || (n =? 32)%nat.

Fixpoint trim_start (s : string) : string :=
  match s with
  | String c s' => if is_space c then trim_start s' else s
  | EmptyString => EmptyString
  end.

Fixpoint trim_end (s : string) : string :=
  match s with
  | String c s' =>
      match trim_end s' with
      | EmptyString => if is_space c then EmptyString else String c EmptyString
      | t => String c t
      end
  | EmptyString => EmptyString
  end.

Definition trim (s : string) : string := trim_end (trim_start s).

(** [s.indexOf(p) === 0] *)
Definition starts_with (p s : string) : bool := String.prefix p s.

(** [s.indexOf(p)], [None] standing for [-1]. *)
Fixpoint index_of (p s : string) : option nat :=
  if String.prefix p s then Some 0%nat
  else match s with
       | String _ s' => S <$> index_of p s'
       | EmptyString => None
       end.

(** [s.replace(p, r)] with a string pattern: the first occurrence only. *)
Fixpoint replace_first (p r s : string) : string :=
  if String.prefix p s then r +:+ String.substring (String.length p) (String.length s) s
  else match s with
       | String c s' => String c (replace_first p r s')
       | EmptyString => EmptyString
       end.

(** The line feed character. *)
Definition LF : Ascii.ascii := Ascii.ascii_of_nat 10.

(** [s.split(/\n/g)] *)
Fixpoint split_lines (s : string) : list string :=
  match s with
  | EmptyString => [""]
  | String c s' =>
      if Ascii.eqb c LF then "" :: split_lines s'
      else match split_lines s' with
           | l :: ls => String c l :: ls
           | [] => [String c EmptyString]
           end
  end.

End JS.

(** ** Data supplied by the test runner and by the base reporter *)

(** Payload of [runner:start] and [runner:end]. *)
Record Runner := { runner_cid : string; runner_specs : list string }.

(** Payload of [suite:start] and [suite:end]. *)
Record Suite := { suite_cid : string; suite_uid : string; suite_title : string }.

(** Payload of the [test:*] events, and a test of the statistics tree. *)
Record Test := { test_cid : string; test_title : string; test_state : string }.

Definition set_state (s : string) (t : Test) : Test :=
  {| test_cid := test_cid t; test_title := test_title t; test_state := s |}.

(** The capability record of a worker; every field is optional. *)
Module Caps.

Record t := {
  deviceName : JS.value;
  browserName : JS.value;
  browser : JS.value;
  version : JS.value;
  platformVersion : JS.value;
  browser_version : JS.value;
  os : JS.value;
  os_version : JS.value;
  platform : JS.value;
  platformName : JS.value;
  app : JS.value
}.

End Caps.

(** A suite of the statistics tree; [tests] is in [for ... in] order. *)
Record SuiteStats := { title : string; tests : list (string * Test) }.

(** The statistics of one spec file; [suites] is in [for ... in] order. *)
Record SpecStats := { suites : list (string * SuiteStats); _duration : Z }.

(** [stats.runners[cid]] *)
Record RunnerStats := {
  capabilities : Caps.t;
  sessionID : string;
  runner_stats_specs : gmap string SpecStats;   (* [results.specs], by spec hash *)
  config_host : JS.value                        (* [results.config.host] *)
}.

(** An entry of [stats.getFailures()]. *)
Record Failure := {
  failure_cid : JS.value;
  failure_runner : list string;          (* [Object.keys(f.runner)] *)
  failure_parent : JS.value;
  failure_title : string;
  err_message : string;
  err_stack : JS.value
}.

(** [baseReporter.stats] *)
Record Stats := {
  runners : gmap string RunnerStats;
  getSpecHash : Runner → string;
  getFailures : list Failure
}.

(** The base reporter handed to the constructor.  It is owned by the test
    runner, which updates its statistics between events, so every method
    takes the base reporter as it is when the method is called. *)
Record BaseReporter := {
  color : option string → string → string;   (* [color(type, text)] *)
  symbols_ok : string;                       (* [symbols.ok] *)
  stats : Stats;
  epilogue : list string                     (* what [epilogue()] prints *)
}.

(** The reporter's configuration as far as the constructor reads it.
    [maxInstances] is compared with [===], so a value that is not a number
    is kept apart from the numbers. *)
Inductive maxInstances_value :=
  | MaxUndefined
  | MaxNumber (n : Z)
  | MaxOther (s : string).

Record Config := { maxInstances : maxInstances_value }.

(** ** The reporter object *)

Record Results := { passing : Z; pending : Z; failing : Z }.

(** [this.context], an object that starts empty. *)
Record Context := {
  context_runner : option Runner;
  context_suite : option Suite;
  context_headerPrinted : option bool;
  context_cid : JS.value;
  context_preface : JS.value
}.

Record SpecReporter := {
  errorCount : Z;
  indents : gmap string JS.num;
  suiteIndents : gmap string (gmap string JS.num);
  specs : gmap string (list string);
  results : gmap string Results;
  context : Context;
  realtime : bool;
  stdout : list string   (* the texts passed to [console.log], oldest first *)
}.

Definition set_errorCount (v : Z) (r : SpecReporter) : SpecReporter :=
  {| errorCount := v; indents := indents r; suiteIndents := suiteIndents r;
     specs := specs r; results := results r; context := context r;
     realtime := realtime r; stdout := stdout r |}.

Definition set_indents (v : gmap string JS.num) (r : SpecReporter) : SpecReporter :=
  {| errorCount := errorCount r; indents := v; suiteIndents := suiteIndents r;
     specs := specs r; results := results r; context := context r;
     realtime := realtime r; stdout := stdout r |}.

Definition set_suiteIndents (v : gmap string (gmap string JS.num)) (r : SpecReporter)
  : SpecReporter :=
  {| errorCount := errorCount r; indents := indents r; suiteIndents := v;
     specs := specs r; results := results r; context := context r;
     realtime := realtime r; stdout := stdout r |}.

Definition set_specs (v : gmap string (list string)) (r : SpecReporter) : SpecReporter :=
  {| errorCount := errorCount r; indents := indents r; suiteIndents := suiteIndents r;
     specs := v; results := results r; context := context r;
     realtime := realtime r; stdout := stdout r |}.

Definition set_results (v : gmap string Results) (r : SpecReporter) : SpecReporter :=
  {| errorCount := errorCount r; indents := indents r; suiteIndents := suiteIndents r;
     specs := specs r; results := v; context := context r;
     realtime := realtime r; stdout := stdout r |}.

Definition set_context (v : Context) (r : SpecReporter) : SpecReporter :=
  {| errorCount := errorCount r; indents := indents r; suiteIndents := suiteIndents r;
     specs := specs r; results := results r; context := v;
     realtime := realtime r; stdout := stdout r |}.

Definition set_stdout (v : list string) (r : SpecReporter) : SpecReporter :=
  {| errorCount := errorCount r; indents := indents r; suiteIndents := suiteIndents r;
     specs := specs r; results := results r; context := context r;
     realtime := realtime r; stdout := v |}.

Definition set_context_runner (v : option Runner) (c : Context) : Context :=
  {| context_runner := v; context_suite := context_suite c;
     context_headerPrinted := context_headerPrinted c;
     context_cid := context_cid c; context_preface := context_preface c |}.

Definition set_context_suite (v : option Suite) (c : Context) : Context :=
  {| context_runner := context_runner c; context_suite := v;
     context_headerPrinted := context_headerPrinted c;
     context_cid := context_cid c; context_preface := context_preface c |}.

Definition set_context_headerPrinted (v : option bool) (c : Context) : Context :=
  {| context_runner := context_runner c; context_suite := context_suite c;
     context_headerPrinted := v;
     context_cid := context_cid c; context_preface := context_preface c |}.

Definition set_context_cid (v : JS.value) (c : Context) : Context :=
  {| context_runner := context_runner c; context_suite := context_suite c;
     context_headerPrinted := context_headerPrinted c;
     context_cid := v; context_preface := context_preface c |}.

Definition set_context_preface (v : JS.value) (c : Context) : Context :=
  {| context_runner := context_runner c; context_suite := context_suite c;
     context_headerPrinted := context_headerPrinted c;
     context_cid := context_cid c; context_preface := v |}.

(** ** Methods run in a state-and-exception monad

    A method receives the object, and returns its completion together with
    the object as the method left it: also when it throws. *)

Definition M (A : Type) : Type := SpecReporter → JS.completion A * SpecReporter.

Definition ret {A} (a : A) : M A := λ this, (JS.Normal a, this).

Definition throw {A} (e : JS.error) : M A := λ this, (JS.Throw e, this).

Definition bind {A B} (m : M A) (k : A → M B) : M B := λ this,
  match m this with
  | (JS.Normal a, this') => k a this'
  | (JS.Throw e, this') => (JS.Throw e, this')
  end.

Definition get : M SpecReporter := λ this, (JS.Normal this, this).

Definition modify (f : SpecReporter → SpecReporter) : M unit :=
  λ this, (JS.Normal tt, f this).

Notation "'let!' x ':=' m 'in' k" := (bind m (λ x, k))
  (at level 10, x name, m at level 100, k at level 200).

Notation "m ';;' k" := (bind m (λ _, k))
  (at level 100, k at level 200, right associativity).

(** [console.log(text)] *)
Definition console_log (text : string) : M unit :=
  modify (λ this, set_stdout (stdout this ++ [text]) this).

(** The object a computation leaves behind, and its completion. *)
Definition exec {A} (m : M A) (this : SpecReporter) : SpecReporter := (m this).2.

Definition eval {A} (m : M A) (this : SpecReporter) : JS.completion A := (m this).1.

Section Reporter.

(** [this.shortEnglishHumanizer(duration, DURATION_OPTIONS)]: the
    humanizer of the [humanize-duration] package with the short English
    units, minutes and seconds only, rounded, no spacer. *)
Variable shortEnglishHumanizer : Z → string.

(** The [constructor]'s field initialisers; the handlers it registers are
    [on] below.  The configuration is an object or [undefined] ([None]), as
    the test runner passes it. *)
Definition constructor (config : option Config) : SpecReporter :=
  {| errorCount := 0;
     indents := ∅;
     suiteIndents := ∅;
     specs := ∅;
     results := ∅;
     context := Build_Context None None None None None;
     realtime :=
       match config with
       | None => false
       | Some c =>
           match maxInstances c with
           | MaxNumber n => n =? 1
           | _ => false
           end
       end;
     stdout := [] |}.

(** [indent (cid, uid)] *)
Definition indent (cid uid : string) : M string := λ this,
  match suiteIndents this !! cid with
  | None => (JS.Throw JS.TypeError, this)
  | Some of_suite =>
      match of_suite !! uid with
      | None =>
          (* [Array(undefined)] is the one-element array [[undefined]] *)
          (JS.Normal (JS.join "    " [""]), this)
      | Some indents =>
          if decide (indents = JS.Num 0) then (JS.Normal "", this)
          else (JS.array_join indents "    ", this)
      end
  end.

(** [getSymbol (state)] *)
Definition getSymbol (br : BaseReporter) (state : string) : M string :=
  if String.eqb state "pass" then ret (symbols_ok br)
  else if String.eqb state "pending" then ret "-"
  else if String.eqb state "fail" then
    modify (λ this, set_errorCount (errorCount this + 1) this);;
    let! this := get in
    ret (JS.of_Z (errorCount this) +:+ ")")
  else ret "?".

(** [getColor (state)] *)
Definition getColor (state : string) : option string :=
  if String.eqb state "pass" || String.eqb state "passing" then Some "green"
  else if String.eqb state "pending" then Some "pending"
  else if String.eqb state "fail" || String.eqb state "failing" then Some "fail"
  else None.

(** [getBrowserCombo (caps, verbose = true)] *)
Definition getBrowserCombo (caps : Caps.t) (verbose : bool) : string :=
  let device := Caps.deviceName caps in
  let browser := JS.or (Caps.browserName caps) (Caps.browser caps) in
  let version :=
    JS.or (JS.or (Caps.version caps) (Caps.platformVersion caps))
          (Caps.browser_version caps) in
  let platform :=
    if JS.truthy (Caps.os caps)
    then Some (JS.to_string (Caps.os caps) +:+ " " +:+ JS.to_string (Caps.os_version caps))
    else JS.or (Caps.platform caps) (Caps.platformName caps) in
  if JS.truthy device then
    let program :=
      JS.or (Some (JS.replace_first "sauce-storage:" ""
                     (JS.to_string (JS.or (Caps.app caps) (Some "")))))
            (Caps.browserName caps) in
    let executing :=
      if JS.truthy program then "executing " +:+ JS.to_string program else "" in
    if negb verbose then
      JS.to_string device +:+ " " +:+ JS.to_string platform +:+ " " +:+ JS.to_string version
    else
      JS.trim (JS.to_string device +:+ " on " +:+ JS.to_string platform +:+ " "
               +:+ JS.to_string version +:+ " " +:+ executing)
  else if negb verbose then
    JS.trim (JS.to_string browser +:+ " " +:+ JS.to_string (JS.or version (Some ""))
             +:+ " " +:+ JS.to_string (JS.or platform (Some "")))
  else
    JS.to_string browser
    +:+ (if JS.truthy version then " (v" +:+ JS.to_string version +:+ ")" else "")
    +:+ (if JS.truthy platform then " on " +:+ JS.to_string platform else "").

(** [getTestResult (cid, uid, test, preface)] *)
Definition getTestResult (br : BaseReporter) (cid uid : string) (test : Test)
    (preface : JS.value) : M string :=
  let output := "" in
  let output := output +:+ JS.to_string preface in
  let! i := indent cid uid in
  let output := output +:+ "   " +:+ i in
  let! symbol := getSymbol br (test_state test) in
  let output := output +:+ color br (getColor (test_state test)) symbol in
  let output := output +:+ " " +:+ test_title test in
  ret output.

(** The marker of a "before all" hook at the head of a suite identifier. *)
Definition before_all : string := String (Ascii.ascii_of_nat 34) "before all"
                                  +:+ String (Ascii.ascii_of_nat 34) "".

(** The inner loop of [getResultList]: [for (const testUid in spec.tests)]. *)
Fixpoint getResultList_tests (br : BaseReporter) (cid specUid : string)
    (preface : string) (tests : list (string * Test)) (output : string) : M string :=
  match tests with
  | [] => ret output
  | (testUid, test) :: rest =>
      if String.eqb (test_state test) "" then
        getResultList_tests br cid specUid preface rest output
      else
        let! line := getTestResult br cid specUid test (Some preface) in
        let output := output +:+ line in
        let output := output +:+ String JS.LF "" in
        getResultList_tests br cid specUid preface rest output
  end.

(** The outer loop of [getResultList]: [for (const specUid in suites)]. *)
Fixpoint getResultList_suites (br : BaseReporter) (cid : string) (preface : string)
    (suites : list (string * SuiteStats)) (output : string) : M string :=
  match suites with
  | [] => ret output
  | (specUid, spec) :: rest =>
      if JS.starts_with before_all specUid then
        getResultList_suites br cid preface rest output
      else
        let! indent := indent cid specUid in
        let specTitle := title spec in
        let output :=
          if negb (JS.starts_with before_all specUid)
          then output +:+ preface +:+ " " +:+ indent +:+ specTitle +:+ String JS.LF ""
          else output in
        let! output := getResultList_tests br cid specUid preface (tests spec) output in
        let output := output +:+ JS.trim preface +:+ String JS.LF "" in
        getResultList_suites br cid preface rest output
  end.

(** [getResultList (cid, suites, preface = '')] *)
Definition getResultList (br : BaseReporter) (cid : string)
    (suites : list (string * SuiteStats)) (preface : string) : M string :=
  getResultList_suites br cid preface suites "".

(** [getSuiteHeader (suite)] *)
Definition getSuiteHeader (suite : Suite) : M string :=
  let! this := get in
  let preface := JS.to_string (context_preface (context this)) in
  let! indent := indent (JS.to_string (context_cid (context this))) (suite_uid suite) in
  let specTitle := suite_title suite in
  let output := "" in
  let output := output +:+ preface +:+ " " +:+ String JS.LF ""
                +:+ preface +:+ " " +:+ indent +:+ specTitle in
  ret output.

(** [printSuiteHeader (suite)] *)
Definition printSuiteHeader (suite : Suite) : M unit :=
  let! text := getSuiteHeader suite in
  console_log text.

(** [printTestResult (suite, test)]; the handlers pass [this.context.suite],
    which may be undefined. *)
Definition printTestResult (br : BaseReporter) (suite : option Suite) (test : Test)
  : M unit :=
  match suite with
  | None => throw JS.TypeError
  | Some suite =>
      let! this := get in
      let! text := getTestResult br (suite_cid suite) (suite_uid suite) test
                     (context_preface (context this)) in
      console_log text
  end.

(** The properties of a results record in [for ... in] order, which is the
    order in which the [runner:start] handler writes them; iterating over
    [undefined] visits nothing. *)
Definition entries (states : option Results) : list (string * Z) :=
  match states with
  | Some r => [("passing", passing r); ("pending", pending r); ("failing", failing r)]
  | None => []
  end.

(** The loop of [getSummary], with its two variables [output] and
    [displayedDuration]. *)
Fixpoint getSummary_loop (br : BaseReporter) (duration : Z) (preface : string)
    (states : list (string * Z)) (output : string) (displayedDuration : bool) : string :=
  match states with
  | [] => output
  | (state, testCount) :: rest =>
      let testDuration := "" in
      if testCount =? 0 then
        getSummary_loop br duration preface rest output displayedDuration
      else
        let testDuration :=
          if negb displayedDuration
          then " (" +:+ shortEnglishHumanizer duration +:+ ")"
          else testDuration in
        let output := output +:+ preface +:+ " " in
        let output := output +:+ color br (getColor state) (JS.of_Z testCount) in
        let output := output +:+ " " +:+ color br (getColor state) state in
        let output := output +:+ testDuration in
        let output := output +:+ String JS.LF "" in
        getSummary_loop br duration preface rest output true
  end.

(** [getSummary (states, duration, preface = '')]; an undefined [preface]
    takes the default. *)
Definition getSummary (br : BaseReporter) (states : option Results) (duration : Z)
    (preface : JS.value) : string :=
  getSummary_loop br duration (default "" preface) (entries states) "" false.

(** [getSummaryFooter (runner)] *)
Definition getSummaryFooter (br : BaseReporter) (runner : Runner) : M string :=
  let! this := get in
  let cid := runner_cid runner in
  match runners (stats br) !! cid, context_runner (context this) with
  | Some runner_results, Some active =>
      match runner_stats_specs runner_results !! getSpecHash (stats br) active with
      | Some spec =>
          let preface := context_preface (context this) in
          let output := "" in
          let output := output +:+ JS.to_string preface +:+ String JS.LF ""
                        +:+ JS.to_string preface +:+ String JS.LF "" in
          let output := output +:+ getSummary br (results this !! cid) (_duration spec) preface in
          let output := output +:+ JS.to_string preface +:+ String JS.LF "" in
          ret output
      | None => throw JS.TypeError
      end
  | _, _ => throw JS.TypeError
  end.

(** [printSummaryFooter (runner)] *)
Definition printSummaryFooter (br : BaseReporter) (runner : Runner) : M unit :=
  let! text := getSummaryFooter br runner in
  console_log text.

(** The body of the [forEach] callback of [getFailureList], for the failure
    at index [i]. *)
Definition getFailureList_entry (br : BaseReporter) (preface : string) (i : nat)
    (test : Failure) : string :=
  let title :=
    match failure_parent test with
    | Some parent => parent +:+ " " +:+ failure_title test
    | None => failure_title test
    end in
  JS.trim preface +:+ String JS.LF ""
  +:+ preface +:+ " "
      +:+ color br (Some "error title") (JS.of_Z (Z.of_nat i + 1) +:+ ") " +:+ title +:+ ":")
      +:+ String JS.LF ""
  +:+ preface +:+ " " +:+ color br (Some "error message") (err_message test)
      +:+ String JS.LF ""
  +:+ (if JS.truthy (err_stack test) then
         let stack :=
           JS.join (String JS.LF "")
             ((λ l, preface +:+ " " +:+ color br (Some "error stack") l)
                <$> JS.split_lines (JS.to_string (err_stack test))) in
         stack +:+ String JS.LF ""
       else
         preface +:+ " " +:+ color br (Some "error stack") "no stack available"
         +:+ String JS.LF "").

(** [getFailureList (failures, preface)] *)
Definition getFailureList (br : BaseReporter) (failures : list Failure) (preface : string)
  : string :=
  String.concat "" (imap (getFailureList_entry br preface) failures).

(** [getJobLink (results, preface)] *)
Definition getJobLink (results : RunnerStats) (preface : string) : string :=
  if negb (JS.truthy (config_host results)) then ""
  else
    let output := "" in
    if bool_decide (is_Some (JS.index_of "saucelabs.com" (JS.to_string (config_host results))))
    then
      let output := output +:+ JS.trim preface +:+ String JS.LF "" in
      let output := output +:+ preface +:+ " Check out job at https://saucelabs.com/tests/"
                    +:+ sessionID results +:+ String JS.LF "" in
      output
    else output.

(** [String] of [this.specs[cid]]: an array prints its elements separated
    by commas. *)
Definition specs_to_string (v : option (list string)) : string :=
  match v with
  | Some l => JS.join "," l
  | None => "undefined"
  end.

(** [getHeader (runner)] *)
Definition getHeader (br : BaseReporter) (runner : Runner) : M string :=
  modify (λ this,
    set_context (set_context_cid (Some (runner_cid runner)) (context this)) this);;
  match runners (stats br) !! runner_cid runner with
  | None => throw JS.TypeError
  | Some results =>
      modify (λ this,
        set_context
          (set_context_preface
             (Some ("[" +:+ getBrowserCombo (capabilities results) false +:+ " #"
                    +:+ JS.to_string (context_cid (context this)) +:+ "]"))
             (context this))
          this);;
      let combo := getBrowserCombo (capabilities results) true in
      let! this := get in
      let preface := JS.to_string (context_preface (context this)) in
      let cid := JS.to_string (context_cid (context this)) in
      let output := "" in
      let output := output
        +:+ "------------------------------------------------------------------"
        +:+ String JS.LF "" in
      let output := output +:+ preface +:+ " Session ID: " +:+ sessionID results
                    +:+ String JS.LF "" in
      let output := output +:+ preface +:+ " Spec: " +:+ specs_to_string (specs this !! cid)
                    +:+ String JS.LF "" in
      let output := output +:+ preface +:+ " Running: " +:+ combo in
      ret output
  end.

(** [printHeader (runner)]; the [suite:start] handler passes
    [this.context.runner], which may be undefined. *)
Definition printHeader (br : BaseReporter) (runner : option Runner) : M unit :=
  modify (λ this,
    set_context (set_context_headerPrinted (Some true) (context this)) this);;
  match runner with
  | None => throw JS.TypeError
  | Some runner =>
      let! text := getHeader br runner in
      console_log text
  end.

(** The filter of [getSuiteResult]:
    [f.cid === cid || Object.keys(f.runner).indexOf(cid) > -1]. *)
Definition failure_of (cid : string) (f : Failure) : bool :=
  bool_decide (failure_cid f = Some cid) || bool_decide (cid ∈ failure_runner f).

(** [getSuiteResult (runner)] *)
Definition getSuiteResult (br : BaseReporter) (runner : Runner) : M string :=
  let cid := runner_cid runner in
  match runners (stats br) !! cid with
  | None => throw JS.TypeError
  | Some runner_results =>
      let preface :=
        "[" +:+ getBrowserCombo (capabilities runner_results) false +:+ " #" +:+ cid +:+ "]" in
      let specHash := getSpecHash (stats br) runner in
      match runner_stats_specs runner_results !! specHash with
      | None => throw JS.TypeError
      | Some spec =>
          let failures := filter (λ f, failure_of cid f = true) (getFailures (stats br)) in
          if bool_decide (suites spec = []) then ret ""
          else
            modify (set_errorCount 0);;
            let output := "" in
            let! header := getHeader br runner in
            let output := output +:+ header in
            let output := output +:+ String JS.LF "" +:+ preface +:+ String JS.LF "" in
            let! list := getResultList br cid (suites spec) preface in
            let output := output +:+ list in
            let output := output +:+ preface +:+ String JS.LF "" in
            let! this := get in
            let output := output
              +:+ getSummary br (results this !! cid) (_duration spec) (Some preface) in
            let output := output +:+ getFailureList br failures preface in
            let output := output +:+ getJobLink runner_results preface in
            let output := output +:+ preface +:+ String JS.LF "" in
            ret output
      end
  end.

(** [printSuiteResult (runner)] *)
Definition printSuiteResult (br : BaseReporter) (runner : Runner) : M unit :=
  let! text := getSuiteResult br runner in
  console_log text.

(** [getSuitesSummary (specCount)] *)
Definition getSuitesSummary (specCount : nat) : string :=
  let output :=
    String JS.LF (String JS.LF
      "==================================================================")
    +:+ String JS.LF "" in
  let output := output +:+ "Number of specs: " +:+ JS.of_Z (Z.of_nat specCount) in
  output.

(** [printSuitesSummary ()] *)
Definition printSuitesSummary (br : BaseReporter) : M unit :=
  let specCount := size (runners (stats br)) in
  if decide (specCount = 1%nat) then ret tt
  else
    console_log (getSuitesSummary specCount);;
    modify (λ this, set_stdout (stdout this ++ epilogue br) this).

(** ** The event handlers *)

Inductive event :=
  | runner_start (runner : Runner)
  | suite_start (suite : Suite)
  | test_pending (test : Test)
  | test_pass (test : Test)
  | test_fail (test : Test)
  | suite_end (suite : Suite)
  | runner_end (runner : Runner)
  | end_.

(** [this.results[cid].<counter>++]: a TypeError when the worker has no
    results record. *)
Definition count (cid : string) (f : Results → Results) : M unit := λ this,
  match results this !! cid with
  | None => (JS.Throw JS.TypeError, this)
  | Some r => (JS.Normal tt, set_results (<[cid := f r]> (results this)) this)
  end.

Definition incr_passing (r : Results) : Results :=
  {| passing := passing r + 1; pending := pending r; failing := failing r |}.

Definition incr_pending (r : Results) : Results :=
  {| passing := passing r; pending := pending r + 1; failing := failing r |}.

Definition incr_failing (r : Results) : Results :=
  {| passing := passing r; pending := pending r; failing := failing r + 1 |}.

(** The second half of every [test:*] handler. *)
Definition report_test (br : BaseReporter) (state : string) (test : Test) : M unit :=
  let! this := get in
  if realtime this then
    let test := set_state state test in
    printTestResult br (context_suite (context this)) test
  else ret tt.

(** [this.on(<event>, function ...)]: the handler the constructor registers
    for each event. *)
Definition on (br : BaseReporter) (e : event) : M unit :=
  match e with
  | runner_start runner =>
      let cid := runner_cid runner in
      modify (λ this, set_suiteIndents (<[cid := ∅]> (suiteIndents this)) this);;
      modify (λ this, set_indents (<[cid := JS.Num 0]> (indents this)) this);;
      modify (λ this, set_specs (<[cid := runner_specs runner]> (specs this)) this);;
      modify (λ this,
        set_results (<[cid := {| passing := 0; pending := 0; failing := 0 |}]> (results this))
          this);;
      let! this := get in
      if realtime this then
        modify (λ this,
          set_context (set_context_runner (Some runner) (context this)) this);;
        modify (λ this,
          set_context (set_context_headerPrinted (Some false) (context this)) this)
      else ret tt
  | suite_start suite =>
      (* [this.suiteIndents[suite.cid][suite.uid] = ++this.indents[suite.cid]]:
         the base object is read first, the increment is then performed and
         stored, and only the final store fails when the base is undefined *)
      let cid := suite_cid suite in
      let! before := get in
      let base := suiteIndents before !! cid in
      let depth := JS.incr (JS.to_number (indents before !! cid)) in
      modify (λ this, set_indents (<[cid := depth]> (indents this)) this);;
      match base with
      | None => throw JS.TypeError
      | Some of_suite =>
          modify (λ this,
            set_suiteIndents
              (<[cid := <[suite_uid suite := depth]> of_suite]> (suiteIndents this)) this);;
          let! this := get in
          if realtime this then
            modify (λ this,
              set_context (set_context_suite (Some suite) (context this)) this);;
            (if negb (default false (context_headerPrinted (context this))) then
               printHeader br (context_runner (context this));;
               modify (λ this,
                 set_context (set_context_headerPrinted (Some true) (context this)) this)
             else ret tt);;
            printSuiteHeader suite
          else ret tt
      end
  | test_pending test =>
      count (test_cid test) incr_pending;;
      report_test br "pending" test
  | test_pass test =>
      count (test_cid test) incr_passing;;
      report_test br "pass" test
  | test_fail test =>
      count (test_cid test) incr_failing;;
      report_test br "fail" test
  | suite_end suite =>
      let cid := suite_cid suite in
      modify (λ this,
        set_indents (<[cid := JS.decr (JS.to_number (indents this !! cid))]> (indents this))
          this);;
      let! this := get in
      if realtime this then
        modify (λ this, set_context (set_context_suite None (context this)) this)
      else ret tt
  | runner_end runner =>
      let! this := get in
      if negb (realtime this) then printSuiteResult br runner
      else
        let cid := runner_cid runner in
        match runners (stats br) !! cid, context_runner (context this) with
        | Some runner_results, Some active =>
            match runner_stats_specs runner_results !! getSpecHash (stats br) active with
            | Some spec =>
                let preface := context_preface (context this) in
                let output := "" in
                let output := output +:+ JS.to_string preface +:+ String JS.LF ""
                              +:+ JS.to_string preface +:+ String JS.LF "" in
                let output := output
                  +:+ getSummary br (results this !! cid) (_duration spec) preface in
                let output := output +:+ JS.to_string preface +:+ String JS.LF "" in
                console_log output
            | None => throw JS.TypeError
            end
        | _, _ => throw JS.TypeError
        end
  | end_ => printSuitesSummary br
  end.

(** The events of a run, each with the base reporter as it is when the
    event is emitted.  An exception leaves a handler, not the object: the
    run goes on from the state the handler reached. *)
Fixpoint run (events : list (BaseReporter * event)) (this : SpecReporter) : SpecReporter :=
  match events with
  | [] => this
  | (br, e) :: rest => run rest (exec (on br e) this)
  end.

End Reporter.

(** * The vocabulary of the statements *)

(** [m] preserves the observation [f] of the object. *)
Definition preserves {X A} (f : SpecReporter → X) (m : M A) : Prop :=
  ∀ this, f (exec m this) = f this.

(** An observation that does not look at the error counter or at the
    real-time context; and one that does not look at the console. *)
Record stable {X} (f : SpecReporter → X) : Prop := {
  stable_errorCount : ∀ v r, f (set_errorCount v r) = f r;
  stable_context : ∀ v r, f (set_context v r) = f r
}.

Definition silent {X} (f : SpecReporter → X) : Prop :=
  ∀ v r, f (set_stdout v r) = f r.

(** How many events of a run satisfy [p]. *)
Fixpoint count_events (p : event → bool) (events : list (BaseReporter * event)) : Z :=
  match events with
  | [] => 0
  | (_, e) :: rest => (if p e then 1 else 0) + count_events p rest
  end.

Definition is_runner_start (cid : string) (e : event) : bool :=
  match e with runner_start r => bool_decide (runner_cid r = cid) | _ => false end.

Definition is_test_pass (cid : string) (e : event) : bool :=
  match e with test_pass t => bool_decide (test_cid t = cid) | _ => false end.

Definition is_test_pending (cid : string) (e : event) : bool :=
  match e with test_pending t => bool_decide (test_cid t = cid) | _ => false end.

Definition is_test_fail (cid : string) (e : event) : bool :=
  match e with test_fail t => bool_decide (test_cid t = cid) | _ => false end.

Definition is_suite_start (cid : string) (e : event) : bool :=
  match e with suite_start s => bool_decide (suite_cid s = cid) | _ => false end.

Definition is_suite_end (cid : string) (e : event) : bool :=
  match e with suite_end s => bool_decide (suite_cid s = cid) | _ => false end.

(** The depth recorded for a suite of a worker:
    [this.suiteIndents[cid][uid]]. *)
Definition stored_depth (this : SpecReporter) (cid uid : string) : option JS.num :=
  suiteIndents this !! cid ≫= λ of_suite, of_suite !! uid.

(** Only [runner:start] of the worker and [suite:start] of the same suite
    write the depth recorded for a suite. *)
Definition writes_depth (cid uid : string) (e : event) : bool :=
  match e with
  | runner_start r => bool_decide (runner_cid r = cid)
  | suite_start s => bool_decide (suite_cid s = cid) && bool_decide (suite_uid s = uid)
  | _ => false
  end.

(** A list of suites as [suite:start] events, and as [suite:end] events. *)
Definition suite_starts (l : list (BaseReporter * Suite)) : list (BaseReporter * event) :=
  (λ bs, (bs.1, suite_start bs.2)) <$> l.

Definition suite_ends (l : list (BaseReporter * Suite)) : list (BaseReporter * event) :=
  (λ bs, (bs.1, suite_end bs.2)) <$> l.

Definition of_worker (cid : string) (l : list (BaseReporter * Suite)) : Prop :=
  Forall (λ bs, suite_cid bs.2 = cid) l.

(** [n] units of four spaces. *)
Fixpoint four_space_units (n : nat) : string :=
  match n with
  | O => ""
  | S n => "    " +:+ four_space_units n
  end.

(** [k] calls of [getSymbol (state)] in a row, with their results in order. *)
Fixpoint getSymbol_times (br : BaseReporter) (state : string) (k : nat) : M (list string) :=
  match k with
  | O => ret []
  | S k =>
      let! symbol := getSymbol br state in
      let! symbols := getSymbol_times br state k in
      ret (symbol :: symbols)
  end.

(** Whether [getSuiteResult] has a block to render for the runner: the
    statistics know the worker and its spec, and the spec has suites. *)
Definition renders (br : BaseReporter) (runner : Runner) : bool :=
  match runners (stats br) !! runner_cid runner with
  | Some runner_results =>
      match runner_stats_specs runner_results !! getSpecHash (stats br) runner with
      | Some spec => negb (bool_decide (suites spec = []))
      | None => false
      end
  | None => false
  end.

(** The text of a sequence of lines, each already ended by its line feed. *)
Definition text_of (lines : list string) : string := foldr String.append "" lines.

(** One line of the summary, as the specification words it: the preface,
    the coloured count, the coloured state name, and the given suffix. *)
Definition summary_line (br : BaseReporter) (preface suffix : string)
    (entry : string * Z) : string :=
  preface +:+ " " +:+ color br (getColor entry.1) (JS.of_Z entry.2)
  +:+ " " +:+ color br (getColor entry.1) entry.1 +:+ suffix +:+ String JS.LF "".

(** The states with a count other than zero, in the order passing, pending,
    failing. *)
Definition nonzero (states : Results) : list (string * Z) :=
  filter (λ entry, entry.2 ≠ 0)
    [("passing", passing states); ("pending", pending states); ("failing", failing states)].

(** The summary as the specification words it: a line for each state that
    has a count, the first of them with the duration. *)
Definition summary_lines (h : Z → string) (br : BaseReporter) (states : Results)
    (duration : Z) (preface : string) : list string :=
  match nonzero states with
  | [] => []
  | first :: others =>
      summary_line br preface (" (" +:+ h duration +:+ ")") first
      :: (summary_line br preface "" <$> others)
  end.

(** A suite whose identifier does not begin with the "before all" marker. *)
Definition unmarked (suites : list (string * SuiteStats)) : list (string * SuiteStats) :=
  filter (λ entry, JS.starts_with before_all entry.1 = false) suites.

(** The block of one suite, as the specification words it: the header
    line, the lines of its tests, and the closing line. *)
Definition render_suite (br : BaseReporter) (cid preface : string)
    (entry : string * SuiteStats) (output : string) : M string :=
  let! i := indent cid entry.1 in
  let output := output +:+ preface +:+ " " +:+ i +:+ title entry.2 +:+ String JS.LF "" in
  let! output := getResultList_tests br cid entry.1 preface (tests entry.2) output in
  ret (output +:+ JS.trim preface +:+ String JS.LF "").

Fixpoint render_suites (br : BaseReporter) (cid preface : string)
    (suites : list (string * SuiteStats)) (output : string) : M string :=
  match suites with
  | [] => ret output
  | entry :: rest =>
      let! output := render_suite br cid preface entry output in
      render_suites br cid preface rest output
  end.

(** The object after [getHeader (runner)]: the context names the worker
    and, when the statistics know the worker, holds its preface. *)
Definition after_getHeader (br : BaseReporter) (runner : Runner) (this : SpecReporter)
  : SpecReporter :=
  let named := set_context_cid (Some (runner_cid runner)) (context this) in
  set_context
    match runners (stats br) !! runner_cid runner with
    | Some runner_results =>
        set_context_preface
          (Some ("[" +:+ getBrowserCombo (capabilities runner_results) false +:+ " #"
                 +:+ runner_cid runner +:+ "]")) named
    | None => named
    end this.

(** ** A sample run

    A base reporter with colours switched off and one desktop worker in its
    statistics, the events of a run, and a stand-in for the humanizer that
    prints whole seconds. *)

Definition sample_humanizer (duration : Z) : string := JS.of_Z (duration / 1000) +:+ "s".

Definition chrome : Caps.t :=
  {| Caps.deviceName := None; Caps.browserName := Some "chrome"; Caps.browser := None;
     Caps.version := Some "100"; Caps.platformVersion := None;
     Caps.browser_version := None; Caps.os := None; Caps.os_version := None;
     Caps.platform := Some "Windows"; Caps.platformName := None; Caps.app := None |}.

(** The mobile capabilities of the specification's example: no [version]. *)
Definition iphone : Caps.t :=
  {| Caps.deviceName := Some "iPhone"; Caps.browserName := Some "Safari";
     Caps.browser := None; Caps.version := None; Caps.platformVersion := None;
     Caps.browser_version := None; Caps.os := Some "iOS"; Caps.os_version := Some "15";
     Caps.platform := None; Caps.platformName := None; Caps.app := None |}.

Definition hook_uid : string := before_all +:+ " hook".

Definition hook_test : Test :=
  {| test_cid := "0-0"; test_title := "sets up"; test_state := "pass" |}.

Definition hook_suite : SuiteStats :=
  {| title := hook_uid; tests := [("sets up1", hook_test)] |}.

Definition login_suite : SuiteStats :=
  {| title := "login";
     tests := [("accepts2", {| test_cid := "0-0"; test_title := "accepts"; test_state := "pass" |});
               ("rejects3", {| test_cid := "0-0"; test_title := "rejects"; test_state := "fail" |});
               ("later4", {| test_cid := "0-0"; test_title := "later"; test_state := "" |})] |}.

Definition sample_stats (workers : gmap string RunnerStats) : Stats :=
  {| runners := workers; getSpecHash := λ runner, JS.join "," (runner_specs runner);
     getFailures := [] |}.

Definition sample_worker : RunnerStats :=
  {| capabilities := chrome; sessionID := "abc";
     runner_stats_specs :=
       {[ "login.js" := {| suites := [(hook_uid, hook_suite); ("login1", login_suite)];
                           _duration := 90000 |} ]};
     config_host := None |}.

Definition sample (workers : gmap string RunnerStats) : BaseReporter :=
  {| color := λ _ text, text; symbols_ok := "v"; stats := sample_stats workers;
     epilogue := [] |}.

Definition one_worker : BaseReporter := sample {[ "0-0" := sample_worker ]}.

Definition no_worker : BaseReporter := sample ∅.

Definition worker : Runner := {| runner_cid := "0-0"; runner_specs := ["login.js"] |}.

Definition other_worker : Runner := {| runner_cid := "0-1"; runner_specs := ["logout.js"] |}.

Definition login : Suite := {| suite_cid := "0-0"; suite_uid := "login1"; suite_title := "login" |}.

Definition form : Suite := {| suite_cid := "0-0"; suite_uid := "form2"; suite_title := "form" |}.

Definition hook : Suite := {| suite_cid := "0-0"; suite_uid := hook_uid; suite_title := hook_uid |}.

Definition test_of (cid title : string) : Test :=
  {| test_cid := cid; test_title := title; test_state := "" |}.

(** A whole run of one worker, with an event of another worker in between. *)
Definition sample_events : list (BaseReporter * event) :=
  [ (one_worker, suite_start login);
    (one_worker, test_pass (test_of "0-0" "accepts"));
    (one_worker, runner_start other_worker);
    (one_worker, test_fail (test_of "0-0" "rejects"));
    (one_worker, test_pass (test_of "0-1" "leaves"));
    (one_worker, test_pending (test_of "0-0" "later"));
    (one_worker, test_pass (test_of "0-0" "remembers"));
    (one_worker, suite_end login);
    (one_worker, runner_end worker);
    (one_worker, end_) ].

Definition serial : option Config := Some {| maxInstances := MaxNumber 1 |}.

(** ** The vocabulary of the further properties *)

(** The worker an event names; [end] names none. *)
Definition event_cid (e : event) : option string :=
  match e with
  | runner_start r | runner_end r => Some (runner_cid r)
  | suite_start s | suite_end s => Some (suite_cid s)
  | test_pending t | test_pass t | test_fail t => Some (test_cid t)
  | end_ => None
  end.

(** The events that are not [runner:end] or [end]. *)
Definition before_the_end (e : event) : bool :=
  match e with
  | runner_end _ | end_ => false
  | _ => true
  end.

(** The suite events of worker [cid] are well nested from depth [depth]:
    no [suite:end] without an open suite, and the worker is not started
    again. *)
Fixpoint well_nested (cid : string) (depth : Z) (events : list (BaseReporter * event))
  : bool :=
  match events with
  | [] => true
  | (_, e) :: rest =>
      if is_runner_start cid e then false
      else if is_suite_start cid e then well_nested cid (depth + 1) rest
      else if is_suite_end cid e then (1 <=? depth) && well_nested cid (depth - 1) rest
      else well_nested cid depth rest
  end.

(** The completed tests of a suite, and those of them that failed. *)
Definition completed (tests : list (string * Test)) : list (string * Test) :=
  filter (λ entry, test_state entry.2 ≠ "") tests.

Definition failed (tests : list (string * Test)) : Z :=
  Z.of_nat (length (filter (λ entry, test_state entry.2 = "fail") tests)).

(** The failed tests of the suites that are listed. *)
Fixpoint failed_in (suites : list (string * SuiteStats)) : Z :=
  match suites with
  | [] => 0
  | (specUid, spec) :: rest =>
      (if JS.starts_with before_all specUid then 0 else failed (tests spec))
      + failed_in rest
  end.

(** [indent] succeeds for every listed suite. *)
Definition indents_fine (this : SpecReporter) (cid : string)
    (suites : list (string * SuiteStats)) : Prop :=
  Forall (λ entry, ∃ i, eval (indent cid entry.1) this = JS.Normal i) (unmarked suites).

(** The text [getJobLink] emits when it emits one. *)
Definition job_link (results : RunnerStats) (preface : string) : string :=
  JS.trim preface +:+ String JS.LF ""
  +:+ preface +:+ " Check out job at https://saucelabs.com/tests/" +:+ sessionID results
  +:+ String JS.LF "".

(** Capabilities with other generic platform fields. *)
Definition with_platform (platform platformName : JS.value) (caps : Caps.t) : Caps.t :=
  {| Caps.deviceName := Caps.deviceName caps; Caps.browserName := Caps.browserName caps;
     Caps.browser := Caps.browser caps; Caps.version := Caps.version caps;
     Caps.platformVersion := Caps.platformVersion caps;
     Caps.browser_version := Caps.browser_version caps; Caps.os := Caps.os caps;
     Caps.os_version := Caps.os_version caps; Caps.platform := platform;
     Caps.platformName := platformName; Caps.app := Caps.app caps |}.

(** Capabilities with another [app]. *)
Definition with_app (app : JS.value) (caps : Caps.t) : Caps.t :=
  {| Caps.deviceName := Caps.deviceName caps; Caps.browserName := Caps.browserName caps;
     Caps.browser := Caps.browser caps; Caps.version := Caps.version caps;
     Caps.platformVersion := Caps.platformVersion caps;
     Caps.browser_version := Caps.browser_version caps; Caps.os := Caps.os caps;
     Caps.os_version := Caps.os_version caps; Caps.platform := Caps.platform caps;
     Caps.platformName := Caps.platformName caps; Caps.app := app |}.

(** The bracketed label of a worker, and the header of a worker, as
    [getHeader] composes them. *)
Definition preface_of (results : RunnerStats) (cid : string) : string :=
  "[" +:+ getBrowserCombo (capabilities results) false +:+ " #" +:+ cid +:+ "]".

Definition header_of (results : RunnerStats) (runner : Runner) : string :=
  "------------------------------------------------------------------"
  +:+ String JS.LF ""
  +:+ preface_of results (runner_cid runner) +:+ " Session ID: " +:+ sessionID results
  +:+ String JS.LF ""
  +:+ preface_of results (runner_cid runner) +:+ " Spec: "
  +:+ JS.join "," (runner_specs runner) +:+ String JS.LF ""
  +:+ preface_of results (runner_cid runner) +:+ " Running: "
  +:+ getBrowserCombo (capabilities results) true.

(** What the reporter holds for one worker. *)
Definition record_of (cid : string) (this : SpecReporter)
  : option Results * option JS.num * option (gmap string JS.num) * option (list string) :=
  (results this !! cid, indents this !! cid, suiteIndents this !! cid, specs this !! cid).

(** The depth counter of worker [cid] is [d], and every depth recorded for
    its suites is a number from 1 to [bound]. *)
Definition depths_within (cid : string) (d bound : Z) (this : SpecReporter) : Prop :=
  indents this !! cid = Some (JS.Num d)
  ∧ ∃ of_suite, suiteIndents this !! cid = Some of_suite
      ∧ ∀ uid n, of_suite !! uid = Some n → ∃ k, n = JS.Num k ∧ 1 ≤ k ≤ bound.

(** ** More of the sample run *)

(** A worker whose spec ran no suite. *)
Definition idle_worker : RunnerStats :=
  {| capabilities := chrome; sessionID := "abc";
     runner_stats_specs := {[ "login.js" := {| suites := []; _duration := 0 |} ]};
     config_host := None |}.

Definition idle : BaseReporter := sample {[ "0-0" := idle_worker ]}.

(** The suites of the sample worker's spec. *)
Definition sample_suites : list (string * SuiteStats) :=
  [(hook_uid, hook_suite); ("login1", login_suite)].

Definition sample_spec : SpecStats := {| suites := sample_suites; _duration := 90000 |}.

(** The reporter in batched mode after the suites of the sample worker,
    and in real-time mode inside its first suite. *)
Definition listed : SpecReporter :=
  run sample_humanizer
    [(one_worker, runner_start worker); (one_worker, suite_start login);
     (one_worker, test_pass (test_of "0-0" "accepts"));
     (one_worker, suite_end login)]
    (constructor None).

Definition streaming : SpecReporter :=
  run sample_humanizer
    [(one_worker, runner_start worker); (one_worker, suite_start login)]
    (constructor serial).

(** Events of the other worker. *)
Definition other_events : list (BaseReporter * event) :=
  [ (one_worker, runner_start other_worker);
    (one_worker, suite_start {| suite_cid := "0-1"; suite_uid := "logout1";
                                suite_title := "logout" |});
    (one_worker, test_fail (test_of "0-1" "leaves"));
    (one_worker, end_) ].

(** Well-nested events of the sample worker, with a nested suite. *)
Definition nested_events : list (BaseReporter * event) :=
  [ (one_worker, suite_start login);
    (one_worker, test_pass (test_of "0-0" "accepts"));
    (one_worker, suite_start form);
    (one_worker, test_fail (test_of "0-0" "rejects"));
    (one_worker, suite_end form);
    (one_worker, suite_end login) ].

(** * Properties *)

(** ** The JavaScript helpers on examples *)

Example trim_ex : JS.trim "  a b  " = "a b".
Proof. reflexivity. Qed.

Example starts_with_ex :
  JS.starts_with before_all hook_uid = true ∧ JS.starts_with before_all "login1" = false.
Proof. by vm_compute. Qed.

Example array_join_ex : JS.array_join (JS.Num 3) "    " = JS.Normal "        ".
Proof. vm_compute. reflexivity. Qed.

Example of_Z_ex : JS.of_Z 120 = "120".
Proof. vm_compute. reflexivity. Qed.

Example replace_ex : JS.replace_first "sauce-storage:" "" "sauce-storage:app.zip" = "app.zip".
Proof. vm_compute. reflexivity. Qed.

Example split_ex : JS.split_lines ("a" +:+ String JS.LF "b") = ["a"; "b"].
Proof. vm_compute. reflexivity. Qed.

Example index_ex : JS.index_of "saucelabs.com" "ondemand.saucelabs.com" = Some 9%nat.
Proof. vm_compute. reflexivity. Qed.

(** ** Reasoning about what a method leaves unchanged *)

Lemma exec_bind {A B} (m : M A) (k : A → M B) this :
  exec (bind m k) this =
  match eval m this with
  | JS.Normal a => exec (k a) (exec m this)
  | JS.Throw _ => exec m this
  end.
Proof. unfold exec, eval, bind. by destruct (m this) as [[a|e] ?]. Qed.

Lemma eval_bind {A B} (m : M A) (k : A → M B) this :
  eval (bind m k) this =
  match eval m this with
  | JS.Normal a => eval (k a) (exec m this)
  | JS.Throw e => JS.Throw e
  end.
Proof. unfold exec, eval, bind. by destruct (m this) as [[a|e] ?]. Qed.

Lemma preserves_ret {X A} (f : SpecReporter → X) (a : A) : preserves f (ret a).
Proof. done. Qed.

Lemma preserves_throw {X A} (f : SpecReporter → X) e : preserves f (@throw A e).
Proof. done. Qed.

Lemma preserves_get {X} (f : SpecReporter → X) : preserves f get.
Proof. done. Qed.

Lemma preserves_modify {X} (f : SpecReporter → X) g :
  (∀ this, f (g this) = f this) → preserves f (modify g).
Proof. intros H this. apply H. Qed.

Lemma preserves_bind {X A B} (f : SpecReporter → X) (m : M A) (k : A → M B) :
  preserves f m → (∀ a, preserves f (k a)) → preserves f (bind m k).
Proof.
  intros Hm Hk this. rewrite exec_bind.
  destruct (eval m this); [rewrite Hk|]; apply Hm.
Qed.

(** What follows a method in a sequence does not disturb [f]. *)
Lemma exec_bind_frame {X A B} (f : SpecReporter → X) (m : M A) (k : A → M B) this :
  (∀ a, preserves f (k a)) → f (exec (bind m k) this) = f (exec m this).
Proof. intros Hk. rewrite exec_bind. destruct (eval m this); [apply Hk | done]. Qed.

Ltac frame_step :=
  first
    [ apply preserves_ret
    | apply preserves_throw
    | apply preserves_get
    | apply preserves_bind; [| intros ?]
    | apply preserves_modify; intros ?; simpl;
      first [ reflexivity | apply stable_errorCount | apply stable_context ];
      assumption
    | progress case_match ].

Ltac frame := repeat frame_step.

Section Frame.

Context {X : Type} (f : SpecReporter → X) (Hf : stable f).

Variable shortEnglishHumanizer : Z → string.

Lemma preserves_indent cid uid : preserves f (indent cid uid).
Proof. intros this. unfold exec, indent. by repeat case_match. Qed.

Lemma preserves_getSymbol br state : preserves f (getSymbol br state).
Proof. unfold getSymbol. frame. Qed.

Lemma preserves_getTestResult br cid uid test preface :
  preserves f (getTestResult br cid uid test preface).
Proof.
  unfold getTestResult.
  apply preserves_bind; [apply preserves_indent | intros i].
  apply preserves_bind; [apply preserves_getSymbol | intros s].
  apply preserves_ret.
Qed.

Lemma preserves_getResultList_tests br cid uid preface tests output :
  preserves f (getResultList_tests br cid uid preface tests output).
Proof.
  revert output. induction tests as [|[testUid test] rest IH]; intros output; simpl.
  - apply preserves_ret.
  - case_match; [apply IH|].
    apply preserves_bind; [apply preserves_getTestResult | intros line; apply IH].
Qed.

Lemma preserves_getResultList br cid suites preface :
  preserves f (getResultList br cid suites preface).
Proof.
  unfold getResultList. generalize "" as output.
  induction suites as [|[specUid spec] rest IH]; intros output; simpl.
  - apply preserves_ret.
  - case_match; [apply IH|].
    apply preserves_bind; [apply preserves_indent | intros i].
    apply preserves_bind; [apply preserves_getResultList_tests | intros out; apply IH].
Qed.

Lemma preserves_getSuiteHeader suite : preserves f (getSuiteHeader suite).
Proof.
  unfold getSuiteHeader.
  apply preserves_bind; [apply preserves_get | intros this].
  apply preserves_bind; [apply preserves_indent | intros i; apply preserves_ret].
Qed.

Lemma preserves_getSummaryFooter br runner :
  preserves f (getSummaryFooter shortEnglishHumanizer br runner).
Proof. unfold getSummaryFooter. frame. Qed.

Lemma preserves_getHeader br runner : preserves f (getHeader br runner).
Proof. unfold getHeader. frame. Qed.

Lemma preserves_getSuiteResult br runner :
  preserves f (getSuiteResult shortEnglishHumanizer br runner).
Proof.
  unfold getSuiteResult. repeat case_match; try apply preserves_throw; try apply preserves_ret.
  apply preserves_bind; [frame | intros _].
  apply preserves_bind; [apply preserves_getHeader | intros header].
  apply preserves_bind; [apply preserves_getResultList | intros list].
  frame.
Qed.

(** The methods that print. *)
Hypothesis Hout : silent f.

Lemma preserves_console_log text : preserves f (console_log text).
Proof. intros this. apply Hout. Qed.

Lemma preserves_printSuiteHeader suite : preserves f (printSuiteHeader suite).
Proof.
  unfold printSuiteHeader.
  apply preserves_bind; [apply preserves_getSuiteHeader | apply preserves_console_log].
Qed.

Lemma preserves_printTestResult br suite test : preserves f (printTestResult br suite test).
Proof.
  unfold printTestResult. destruct suite as [suite|]; [|apply preserves_throw].
  apply preserves_bind; [apply preserves_get | intros this].
  apply preserves_bind; [apply preserves_getTestResult | apply preserves_console_log].
Qed.

Lemma preserves_printHeader br runner : preserves f (printHeader br runner).
Proof.
  unfold printHeader. apply preserves_bind; [frame | intros _].
  destruct runner as [runner|]; [|apply preserves_throw].
  apply preserves_bind; [apply preserves_getHeader | apply preserves_console_log].
Qed.

Lemma preserves_printSuiteResult br runner :
  preserves f (printSuiteResult shortEnglishHumanizer br runner).
Proof.
  unfold printSuiteResult.
  apply preserves_bind; [apply preserves_getSuiteResult | apply preserves_console_log].
Qed.

Lemma preserves_printSuitesSummary br : preserves f (printSuitesSummary br).
Proof.
  unfold printSuitesSummary. case_match; [apply preserves_ret|].
  apply preserves_bind; [apply preserves_console_log | intros _].
  apply preserves_modify. intros this. apply Hout.
Qed.

Lemma preserves_report_test br state test : preserves f (report_test br state test).
Proof.
  unfold report_test. apply preserves_bind; [apply preserves_get | intros this].
  case_match; [apply preserves_printTestResult | apply preserves_ret].
Qed.

(** The [runner:end] handler only prints. *)
Lemma preserves_on_runner_end br runner :
  preserves f (on shortEnglishHumanizer br (runner_end runner)).
Proof.
  simpl. apply preserves_bind; [apply preserves_get | intros this].
  case_match; [apply preserves_printSuiteResult|].
  repeat case_match; try apply preserves_throw. apply preserves_console_log.
Qed.

End Frame.

Lemma stable_results : stable results.
Proof. by split. Qed.

Lemma stable_indents : stable indents.
Proof. by split. Qed.

Lemma stable_suiteIndents : stable suiteIndents.
Proof. by split. Qed.

Lemma stable_realtime : stable realtime.
Proof. by split. Qed.

Lemma silent_results : silent results.
Proof. done. Qed.

Lemma silent_indents : silent indents.
Proof. done. Qed.

Lemma silent_suiteIndents : silent suiteIndents.
Proof. done. Qed.

Lemma silent_realtime : silent realtime.
Proof. done. Qed.

Create HintDb frame.
#[local] Hint Resolve stable_results stable_indents stable_suiteIndents stable_realtime
  silent_results silent_indents silent_suiteIndents silent_realtime : frame.

(** ** The mode flag *)

(** No handler assigns [this.realtime]. *)
Lemma on_realtime h br e : preserves realtime (on h br e).
Proof.
  destruct e; simpl.
  - frame.
  - apply preserves_bind; [apply preserves_get | intros before].
    apply preserves_bind; [frame | intros _].
    case_match; [|apply preserves_throw].
    apply preserves_bind; [frame | intros _].
    apply preserves_bind; [apply preserves_get | intros this].
    case_match; [|apply preserves_ret].
    apply preserves_bind; [frame | intros _].
    apply preserves_bind; [| intros _; apply preserves_printSuiteHeader; auto with frame].
    case_match; [|apply preserves_ret].
    apply preserves_bind; [apply preserves_printHeader; auto with frame | intros _; frame].
  - apply preserves_bind; [| intros _; apply preserves_report_test; auto with frame].
    intros this. unfold exec, count. by case_match.
  - apply preserves_bind; [| intros _; apply preserves_report_test; auto with frame].
    intros this. unfold exec, count. by case_match.
  - apply preserves_bind; [| intros _; apply preserves_report_test; auto with frame].
    intros this. unfold exec, count. by case_match.
  - frame.
  - apply preserves_on_runner_end; auto with frame.
  - apply preserves_printSuitesSummary; auto with frame.
Qed.

Lemma run_realtime h events this : realtime (run h events this) = realtime this.
Proof.
  revert this. induction events as [|[br e] rest IH]; intros this; simpl; [done|].
  rewrite IH. apply on_realtime.
Qed.

(** C10: the constructor sets the real-time flag exactly when the
    configuration object is defined and its [maxInstances] is the number 1;
    it is false otherwise, in particular for an undefined configuration, a
    missing [maxInstances], a number other than 1 and a value that is not a
    number; and no handler, hence no run of events, changes the flag of a
    reporter. *)
Theorem realtime_fixed_at_construction h :
  (∀ config,
     realtime (constructor config) = true ↔
     ∃ c, config = Some c ∧ maxInstances c = MaxNumber 1)
  ∧ realtime (constructor None) = false
  ∧ realtime (constructor (Some {| maxInstances := MaxUndefined |})) = false
  ∧ (∀ n, realtime (constructor (Some {| maxInstances := MaxNumber n |})) = (n =? 1))
  ∧ (∀ s, realtime (constructor (Some {| maxInstances := MaxOther s |})) = false)
  ∧ (∀ br e this, realtime (exec (on h br e) this) = realtime this)
  ∧ (∀ events this, realtime (run h events this) = realtime this).
Proof.
  split_and!.
  - intros [[m]|]; simpl.
    + destruct m as [|n|s]; simpl.
      * split; [done | by intros (c & [= <-] & ?)].
      * rewrite Z.eqb_eq. split.
        -- intros ->. by eexists.
        -- by intros (c & [= <-] & [= ->]).
      * split; [done | by intros (c & [= <-] & ?)].
    + split; [done | by intros (c & ? & ?)].
  - done.
  - done.
  - done.
  - done.
  - intros br e this. apply on_realtime.
  - intros events this. apply run_realtime.
Qed.

(** ** The result counters *)

Lemma count_events_nonneg p events : 0 ≤ count_events p events.
Proof. induction events as [|[br e] rest IH]; simpl; [done | case_match; lia]. Qed.

Lemma count_events_zero_cons p br e rest :
  count_events p ((br, e) :: rest) = 0 → p e = false ∧ count_events p rest = 0.
Proof.
  simpl. pose proof (count_events_nonneg p rest). destruct (p e); [lia | done].
Qed.

Lemma exec_count cid g this :
  results (exec (count cid g) this) =
  match results this !! cid with
  | Some r => <[cid := g r]> (results this)
  | None => results this
  end.
Proof. unfold exec, count. by case_match. Qed.

(** The effect of a [test:*] handler on the results of the workers. *)
Lemma on_test_results br cid g state test this :
  results (exec (count cid g;; report_test br state test) this) =
  match results this !! cid with
  | Some r => <[cid := g r]> (results this)
  | None => results this
  end.
Proof.
  rewrite (exec_bind_frame results); [apply exec_count|].
  intros _. apply preserves_report_test; auto with frame.
Qed.

(** The handlers of the suite events, of [runner:end] and of [end] leave the
    results alone. *)
Lemma on_other_results h br e :
  match e with
  | suite_start _ | suite_end _ | runner_end _ | end_ => true
  | _ => false
  end = true →
  preserves results (on h br e).
Proof.
  destruct e; intros [=]; simpl.
  - apply preserves_bind; [apply preserves_get | intros before].
    apply preserves_bind; [frame | intros _].
    case_match; [|apply preserves_throw].
    apply preserves_bind; [frame | intros _].
    apply preserves_bind; [apply preserves_get | intros this].
    case_match; [|apply preserves_ret].
    apply preserves_bind; [frame | intros _].
    apply preserves_bind; [| intros _; apply preserves_printSuiteHeader; auto with frame].
    case_match; [|apply preserves_ret].
    apply preserves_bind; [apply preserves_printHeader; auto with frame | intros _; frame].
  - frame.
  - apply preserves_on_runner_end; auto with frame.
  - apply preserves_printSuitesSummary; auto with frame.
Qed.

Lemma on_runner_start_results h br runner this :
  results (exec (on h br (runner_start runner)) this) =
  <[runner_cid runner := {| passing := 0; pending := 0; failing := 0 |}]> (results this).
Proof. unfold exec. simpl. unfold bind, modify, get. simpl. by case_match. Qed.

(** The counters of worker [cid] after a run in which the worker is not
    started again. *)
Lemma run_results h cid events : ∀ this r,
  results this !! cid = Some r →
  count_events (is_runner_start cid) events = 0 →
  results (run h events this) !! cid =
  Some {| passing := passing r + count_events (is_test_pass cid) events;
          pending := pending r + count_events (is_test_pending cid) events;
          failing := failing r + count_events (is_test_fail cid) events |}.
Proof.
  induction events as [|[br e] rest IH]; intros this r Hr Hstart.
  - simpl. rewrite Hr. destruct r; simpl. do 2 f_equal; lia.
  - apply count_events_zero_cons in Hstart as [He Hrest].
    cbn [run count_events].
    assert (∃ r', results (exec (on h br e) this) !! cid = Some r' ∧
              passing r' = passing r + (if is_test_pass cid e then 1 else 0) ∧
              pending r' = pending r + (if is_test_pending cid e then 1 else 0) ∧
              failing r' = failing r + (if is_test_fail cid e then 1 else 0))
      as (r' & Hr' & Hpass & Hpend & Hfail).
    { destruct e as [runner|suite|test|test|test|suite|runner|];
        try (exists r; rewrite on_other_results by done; simpl; split_and!;
             [done | lia..]).
      - simpl in He. apply bool_decide_eq_false in He.
        exists r. rewrite on_runner_start_results, lookup_insert_ne by done.
        simpl. split_and!; [done | lia..].
      - cbn [on]. rewrite on_test_results. simpl.
        destruct (decide (test_cid test = cid)) as [->|Hne].
        + rewrite Hr, lookup_insert_eq. eexists. split; [done|].
          rewrite bool_decide_eq_true_2 by done. simpl. lia.
        + rewrite !bool_decide_eq_false_2 by done.
          exists r. split; [|lia]. case_match; [by rewrite lookup_insert_ne | done].
      - cbn [on]. rewrite on_test_results. simpl.
        destruct (decide (test_cid test = cid)) as [->|Hne].
        + rewrite Hr, lookup_insert_eq. eexists. split; [done|].
          rewrite bool_decide_eq_true_2 by done. simpl. lia.
        + rewrite !bool_decide_eq_false_2 by done.
          exists r. split; [|lia]. case_match; [by rewrite lookup_insert_ne | done].
      - cbn [on]. rewrite on_test_results. simpl.
        destruct (decide (test_cid test = cid)) as [->|Hne].
        + rewrite Hr, lookup_insert_eq. eexists. split; [done|].
          rewrite bool_decide_eq_true_2 by done. simpl. lia.
        + rewrite !bool_decide_eq_false_2 by done.
          exists r. split; [|lia]. case_match; [by rewrite lookup_insert_ne | done]. }
    rewrite (IH _ r' Hr' Hrest). f_equal. f_equal; lia.
Qed.

(** C1: after [runner:start] for a worker, and any further events in which
    that worker is not started again (its own test events in any order,
    and also suite events, [runner:end], and the events of other workers),
    the worker's results record holds the number of its [test:pass],
    [test:pending] and [test:fail] events, whatever the state before and in
    either mode. *)
Theorem results_count_test_events h br runner events this :
  count_events (is_runner_start (runner_cid runner)) events = 0 →
  results (run h ((br, runner_start runner) :: events) this) !! runner_cid runner =
  Some {| passing := count_events (is_test_pass (runner_cid runner)) events;
          pending := count_events (is_test_pending (runner_cid runner)) events;
          failing := count_events (is_test_fail (runner_cid runner)) events |}.
Proof.
  intros Hstart. cbn [run].
  rewrite (run_results h _ events _ {| passing := 0; pending := 0; failing := 0 |}).
  - done.
  - by rewrite on_runner_start_results, lookup_insert_eq.
  - done.
Qed.

(** ** The indentation depth *)

Lemma on_suite_start_indents h br suite this :
  indents (exec (on h br (suite_start suite)) this) =
  <[suite_cid suite := JS.incr (JS.to_number (indents this !! suite_cid suite))]> (indents this).
Proof.
  cbn [on]. rewrite exec_bind. cbn [eval get fst exec snd].
  rewrite (exec_bind_frame indents); [done|].
  intros _. case_match; [|apply preserves_throw].
  apply preserves_bind; [frame | intros _].
  apply preserves_bind; [apply preserves_get | intros st].
  case_match; [|apply preserves_ret].
  apply preserves_bind; [frame | intros _].
  apply preserves_bind; [| intros _; apply preserves_printSuiteHeader; auto with frame].
  case_match; [|apply preserves_ret].
  apply preserves_bind; [apply preserves_printHeader; auto with frame | intros _; frame].
Qed.

Lemma on_suite_start_suiteIndents h br suite this :
  suiteIndents (exec (on h br (suite_start suite)) this) =
  match suiteIndents this !! suite_cid suite with
  | Some of_suite =>
      <[suite_cid suite :=
          <[suite_uid suite := JS.incr (JS.to_number (indents this !! suite_cid suite))]>
            of_suite]> (suiteIndents this)
  | None => suiteIndents this
  end.
Proof.
  cbn [on]. rewrite exec_bind. cbn [eval get fst exec snd].
  rewrite exec_bind. cbn [eval modify fst exec snd].
  destruct (suiteIndents this !! suite_cid suite) as [of_suite|]; [|done].
  rewrite (exec_bind_frame suiteIndents); [done|].
  intros _. apply preserves_bind; [apply preserves_get | intros st].
  case_match; [|apply preserves_ret].
  apply preserves_bind; [frame | intros _].
  apply preserves_bind; [| intros _; apply preserves_printSuiteHeader; auto with frame].
  case_match; [|apply preserves_ret].
  apply preserves_bind; [apply preserves_printHeader; auto with frame | intros _; frame].
Qed.

Lemma on_suite_end_indents h br suite this :
  indents (exec (on h br (suite_end suite)) this) =
  <[suite_cid suite := JS.decr (JS.to_number (indents this !! suite_cid suite))]> (indents this).
Proof.
  cbn [on]. rewrite (exec_bind_frame indents); [done|].
  intros _. frame.
Qed.

Lemma on_suite_end_suiteIndents h br suite : preserves suiteIndents (on h br (suite_end suite)).
Proof. cbn [on]. frame. Qed.

Lemma on_runner_start_indents h br runner this :
  indents (exec (on h br (runner_start runner)) this) =
  <[runner_cid runner := JS.Num 0]> (indents this).
Proof. unfold exec. simpl. unfold bind, modify, get. simpl. by case_match. Qed.

Lemma on_runner_start_suiteIndents h br runner this :
  suiteIndents (exec (on h br (runner_start runner)) this) =
  <[runner_cid runner := ∅]> (suiteIndents this).
Proof. unfold exec. simpl. unfold bind, modify, get. simpl. by case_match. Qed.

(** The test events, [runner:end] and [end] touch neither the counter nor
    the recorded depths. *)
Lemma on_other_indents {X} (f : SpecReporter → X) h br e :
  stable f → silent f → (∀ v r, f (set_results v r) = f r) →
  match e with
  | test_pending _ | test_pass _ | test_fail _ | runner_end _ | end_ => true
  | _ => false
  end = true →
  preserves f (on h br e).
Proof.
  intros Hf Hout Hres. destruct e; intros [=]; cbn [on].
  - apply preserves_bind; [| intros _; by apply preserves_report_test].
    intros this. unfold exec, count. case_match; [apply Hres | done].
  - apply preserves_bind; [| intros _; by apply preserves_report_test].
    intros this. unfold exec, count. case_match; [apply Hres | done].
  - apply preserves_bind; [| intros _; by apply preserves_report_test].
    intros this. unfold exec, count. case_match; [apply Hres | done].
  - by apply preserves_on_runner_end.
  - by apply preserves_printSuitesSummary.
Qed.

(** The counter of a worker is the number of its [suite:start] events less
    that of its [suite:end] events, in any interleaving. *)
Lemma run_indents h cid events : ∀ this d,
  indents this !! cid = Some (JS.Num d) →
  count_events (is_runner_start cid) events = 0 →
  indents (run h events this) !! cid =
  Some (JS.Num (d + count_events (is_suite_start cid) events
                  - count_events (is_suite_end cid) events)).
Proof.
  induction events as [|[br e] rest IH]; intros this d Hd Hstart.
  - simpl. rewrite Hd. do 2 f_equal. lia.
  - apply count_events_zero_cons in Hstart as [He Hrest].
    cbn [run count_events].
    assert (indents (exec (on h br e) this) !! cid =
            Some (JS.Num (d + (if is_suite_start cid e then 1 else 0)
                            - (if is_suite_end cid e then 1 else 0)))) as Hd'.
    { destruct e as [runner|suite|test|test|test|suite|runner|];
        try (rewrite (on_other_indents indents) by (done || apply stable_indents);
             simpl; rewrite Hd; do 2 f_equal; lia).
      - simpl in He. apply bool_decide_eq_false in He.
        rewrite on_runner_start_indents, lookup_insert_ne by done.
        simpl. rewrite Hd. do 2 f_equal. lia.
      - rewrite on_suite_start_indents. simpl.
        destruct (decide (suite_cid suite = cid)) as [->|Hne].
        + rewrite lookup_insert_eq, Hd, bool_decide_eq_true_2 by done.
          simpl. do 2 f_equal. lia.
        + rewrite lookup_insert_ne, Hd, bool_decide_eq_false_2 by done.
          do 2 f_equal. lia.
      - rewrite on_suite_end_indents. simpl.
        destruct (decide (suite_cid suite = cid)) as [->|Hne].
        + rewrite lookup_insert_eq, Hd, bool_decide_eq_true_2 by done.
          simpl. do 2 f_equal. lia.
        + rewrite lookup_insert_ne, Hd, bool_decide_eq_false_2 by done.
          do 2 f_equal. lia. }
    rewrite (IH _ _ Hd' Hrest). do 2 f_equal. lia.
Qed.

Lemma on_stored_depth h br e cid uid this :
  writes_depth cid uid e = false →
  stored_depth (exec (on h br e) this) cid uid = stored_depth this cid uid.
Proof.
  intros He. unfold stored_depth.
  destruct e as [runner|suite|test|test|test|suite|runner|];
    try (by rewrite (on_other_indents suiteIndents) by (done || apply stable_suiteIndents)).
  - simpl in He. apply bool_decide_eq_false in He.
    by rewrite on_runner_start_suiteIndents, lookup_insert_ne.
  - rewrite on_suite_start_suiteIndents. simpl in He.
    destruct (suiteIndents this !! suite_cid suite) as [of_suite|] eqn:Hbase; [|done].
    destruct (decide (suite_cid suite = cid)) as [Hcid|Hcid].
    + rewrite bool_decide_eq_true_2 in He by done. simpl in He.
      apply bool_decide_eq_false in He. subst cid.
      rewrite lookup_insert_eq, Hbase. simpl. by rewrite lookup_insert_ne.
    + by rewrite lookup_insert_ne.
  - by rewrite on_suite_end_suiteIndents.
Qed.

Lemma run_stored_depth h cid uid events : ∀ this,
  count_events (writes_depth cid uid) events = 0 →
  stored_depth (run h events this) cid uid = stored_depth this cid uid.
Proof.
  induction events as [|[br e] rest IH]; intros this Hw; [done|].
  apply count_events_zero_cons in Hw as [He Hrest].
  cbn [run]. rewrite IH by done. by apply on_stored_depth.
Qed.

Lemma count_suite_starts cid l :
  of_worker cid l →
  count_events (is_suite_start cid) (suite_starts l) = Z.of_nat (length l)
  ∧ count_events (is_suite_end cid) (suite_starts l) = 0
  ∧ count_events (is_runner_start cid) (suite_starts l) = 0.
Proof.
  induction 1 as [|[br s] l Hs _ IH]; [done|].
  destruct IH as (IH1 & IH2 & IH3). simpl in Hs. cbn.
  rewrite bool_decide_eq_true_2 by done.
  fold (suite_starts l). rewrite IH1, IH2, IH3. lia.
Qed.

Lemma count_suite_ends cid l :
  of_worker cid l →
  count_events (is_suite_end cid) (suite_ends l) = Z.of_nat (length l)
  ∧ count_events (is_suite_start cid) (suite_ends l) = 0
  ∧ count_events (is_runner_start cid) (suite_ends l) = 0.
Proof.
  induction 1 as [|[br s] l Hs _ IH]; [done|].
  destruct IH as (IH1 & IH2 & IH3). simpl in Hs. cbn.
  rewrite bool_decide_eq_true_2 by done.
  fold (suite_ends l). rewrite IH1, IH2, IH3. lia.
Qed.

Lemma count_writes_suite_starts cid uid l :
  uid ∉ (λ bs, suite_uid bs.2) <$> l →
  count_events (writes_depth cid uid) (suite_starts l) = 0.
Proof.
  induction l as [|[br s] l IH]; [done|].
  rewrite fmap_cons, not_elem_of_cons. intros [Hne Hl]. cbn.
  fold (suite_starts l). rewrite IH by done.
  rewrite (bool_decide_eq_false_2 (suite_uid s = uid)) by done.
  by rewrite andb_false_r.
Qed.

Lemma count_writes_suite_ends cid uid l :
  count_events (writes_depth cid uid) (suite_ends l) = 0.
Proof. induction l as [|[br s] l IH]; [done|]. cbn. fold (suite_ends l). by rewrite IH. Qed.

(** The depth recorded for the suite started [i]-th in a row. *)
Lemma run_suite_starts_stored h cid l : ∀ this d i bs,
  indents this !! cid = Some (JS.Num d) →
  is_Some (suiteIndents this !! cid) →
  of_worker cid l →
  NoDup ((λ bs, suite_uid bs.2) <$> l) →
  l !! i = Some bs →
  stored_depth (run h (suite_starts l) this) cid (suite_uid bs.2)
  = Some (JS.Num (d + Z.of_nat i + 1)).
Proof.
  induction l as [|[br s] l IH]; intros this d i bs Hd [m Hm] Hl Hnd Hi; [done|].
  apply Forall_cons in Hl as [Hs Hl]. simpl in Hs.
  rewrite fmap_cons in Hnd. apply NoDup_cons in Hnd as [Hfresh Hnd].
  cbn [suite_starts fmap list_fmap run fst snd]. fold (suite_starts l).
  assert (indents (exec (on h br (suite_start s)) this) !! cid = Some (JS.Num (d + 1)))
    as Hd'.
  { by rewrite on_suite_start_indents, Hs, lookup_insert_eq, Hd. }
  assert (suiteIndents (exec (on h br (suite_start s)) this) !! cid
          = Some (<[suite_uid s := JS.Num (d + 1)]> m)) as Hm'.
  { by rewrite on_suite_start_suiteIndents, Hs, Hm, lookup_insert_eq, Hd. }
  destruct i as [|i]; simpl in Hi.
  - injection Hi as <-. cbn [snd].
    rewrite run_stored_depth by by apply count_writes_suite_starts.
    unfold stored_depth. rewrite Hm'. simpl. rewrite lookup_insert_eq.
    do 2 f_equal. lia.
  - rewrite (IH _ (d + 1) i bs); [do 2 f_equal; lia | done | by eexists | done..].
Qed.

(** C2: after [runner:start] and [N] nested [suite:start] events of a
    worker, its depth counter is [N]; after [N] [suite:end] events, for
    whichever suites, it is 0 again: a [suite:end] decrements the one counter
    of the worker named in the event and does not look at the suite.  The
    depth recorded for a suite is the value of the counter at its
    [suite:start] (the position in the nesting, from 1), and the later
    events leave it as it is. *)
Theorem indent_depth_is_a_counter h br runner (nest ends : list (BaseReporter * Suite)) this :
  of_worker (runner_cid runner) nest →
  of_worker (runner_cid runner) ends →
  length ends = length nest →
  NoDup ((λ bs, suite_uid bs.2) <$> nest) →
  let cid := runner_cid runner in
  let started := run h ((br, runner_start runner) :: suite_starts nest) this in
  let ended := run h (suite_ends ends) started in
  indents started !! cid = Some (JS.Num (Z.of_nat (length nest)))
  ∧ indents ended !! cid = Some (JS.Num 0)
  ∧ (∀ br' suite st,
       indents (exec (on h br' (suite_end suite)) st) !! suite_cid suite
       = Some (JS.decr (JS.to_number (indents st !! suite_cid suite))))
  ∧ (∀ i bs, nest !! i = Some bs →
       stored_depth started cid (suite_uid bs.2) = Some (JS.Num (Z.of_nat i + 1))
       ∧ stored_depth ended cid (suite_uid bs.2) = Some (JS.Num (Z.of_nat i + 1))).
Proof.
  intros Hnest Hends Hlen Hnd cid started ended.
  destruct (count_suite_starts cid nest Hnest) as (Hs1 & Hs2 & Hs3).
  destruct (count_suite_ends cid ends Hends) as (He1 & He2 & He3).
  assert (indents started !! cid = Some (JS.Num (Z.of_nat (length nest)))) as Hstarted.
  { unfold started. cbn [run].
    rewrite (run_indents h cid _ _ 0); [do 2 f_equal; lia | | done].
    by rewrite on_runner_start_indents, lookup_insert_eq. }
  assert (∀ i bs, nest !! i = Some bs →
            stored_depth started cid (suite_uid bs.2) = Some (JS.Num (Z.of_nat i + 1)))
    as Hstored.
  { intros i bs Hi. unfold started. cbn [run].
    rewrite (run_suite_starts_stored h cid nest _ 0 i bs); [do 2 f_equal; lia | | | done..].
    - by rewrite on_runner_start_indents, lookup_insert_eq.
    - rewrite on_runner_start_suiteIndents, lookup_insert_eq. by eexists. }
  split_and!.
  - done.
  - unfold ended. rewrite (run_indents h cid _ _ _ Hstarted He3). do 2 f_equal. lia.
  - intros br' suite st. by rewrite on_suite_end_indents, lookup_insert_eq.
  - intros i bs Hi. split; [by apply Hstored|].
    unfold ended. rewrite run_stored_depth by apply count_writes_suite_ends.
    by apply Hstored.
Qed.

(** ** The indent string *)

Lemma four_space_units_length n : String.length (four_space_units n) = (4 * n)%nat.
Proof.
  induction n as [|n IH]; [done|].
  change (String.length (four_space_units (S n)))
    with (S (S (S (S (String.length (four_space_units n)))))).
  lia.
Qed.

(** Joining [n + 1] empty strings puts [n] separators in a row. *)
Lemma join_holes n : JS.join "    " (replicate (S n) "") = four_space_units n.
Proof.
  induction n as [|n IH]; [done|].
  change (JS.join "    " (replicate (S (S n)) ""))
    with ("    " +:+ JS.join "    " (replicate (S n) "")).
  by rewrite IH.
Qed.

(** C3: for a worker and a suite whose recorded depth is [d], a count that
    [Array] accepts as a length, [indent] returns [d - 1] units of four
    spaces, [4 * (d - 1)] characters in all, and does not touch the object;
    that is the empty string for [d = 0] and for [d = 1]. *)
Theorem indent_units this cid uid d :
  stored_depth this cid uid = Some (JS.Num d) →
  0 ≤ d < 2 ^ 32 →
  indent cid uid this = (JS.Normal (four_space_units (Z.to_nat (d - 1))), this)
  ∧ String.length (four_space_units (Z.to_nat (d - 1))) = (4 * Z.to_nat (d - 1))%nat
  ∧ four_space_units (Z.to_nat (0 - 1)) = ""
  ∧ four_space_units (Z.to_nat (1 - 1)) = "".
Proof.
  intros Hd Hrange. split_and!; [| apply four_space_units_length | done..].
  unfold stored_depth in Hd. unfold indent.
  destruct (suiteIndents this !! cid) as [of_suite|]; [simpl in Hd | done].
  rewrite Hd. case_decide as H0.
  - injection H0 as ->. done.
  - unfold JS.array_join.
    assert (d ≠ 0) by congruence.
    destruct (Z.leb_spec 0 d); [|lia]. destruct (Z.ltb_spec d (2 ^ 32)); [|lia].
    simpl. replace (Z.to_nat d) with (S (Z.to_nat (d - 1))) by lia.
    by rewrite join_holes.
Qed.

(** ** The failure glyphs *)

Lemma getSymbol_fail br this :
  getSymbol br "fail" this =
  (JS.Normal (JS.of_Z (errorCount this + 1) +:+ ")"), set_errorCount (errorCount this + 1) this).
Proof. done. Qed.

Lemma getSymbol_other br state this :
  String.eqb state "fail" = false → exec (getSymbol br state) this = this.
Proof. intros H. unfold getSymbol. rewrite H. by repeat case_match. Qed.

Lemma set_errorCount_twice a b this :
  set_errorCount a (set_errorCount b this) = set_errorCount a this.
Proof. done. Qed.

Lemma getSymbol_times_fail br k : ∀ this,
  getSymbol_times br "fail" k this =
  (JS.Normal ((λ i : nat, JS.of_Z (errorCount this + Z.of_nat i) +:+ ")") <$> seq 1 k),
   set_errorCount (errorCount this + Z.of_nat k) this).
Proof.
  induction k as [|k IH]; intros this.
  - simpl. unfold ret. f_equal. destruct this; unfold set_errorCount; simpl. f_equal. lia.
  - cbn [getSymbol_times]. unfold bind at 1. rewrite getSymbol_fail.
    unfold bind at 1. rewrite IH. unfold ret. cbn [errorCount set_errorCount].
    f_equal.
    + f_equal. cbn [seq fmap list_fmap]. f_equal.
      rewrite <- (fmap_S_seq 1), <- list_fmap_compose.
      apply list_fmap_ext. intros _ i _. simpl. do 2 f_equal. lia.
    + rewrite set_errorCount_twice. f_equal. lia.
Qed.

(** C4: with the error counter at 0, [k] calls of [getSymbol ('fail')] in
    a row return ["1)"], ["2)"], ..., ["k)"] and leave the counter at [k];
    every call with 'fail' adds one to the counter and a call with any
    other state ('pass', 'pending', an unknown one) changes nothing; and
    [getSuiteResult], when it has a block to render, renders it from the
    counter 0 whatever the counter was. *)
Theorem fail_symbols_count_up h br :
  (∀ k this,
     getSymbol_times br "fail" k (set_errorCount 0 this) =
     (JS.Normal ((λ i : nat, JS.of_Z (Z.of_nat i) +:+ ")") <$> seq 1 k),
      set_errorCount (Z.of_nat k) this))
  ∧ (∀ state this,
       exec (getSymbol br state) this =
       if String.eqb state "fail" then set_errorCount (errorCount this + 1) this else this)
  ∧ (∀ runner this,
       getSuiteResult h br runner this =
       if renders br runner then getSuiteResult h br runner (set_errorCount 0 this)
       else (eval (getSuiteResult h br runner) this, this)).
Proof.
  split_and!.
  - intros k this. rewrite getSymbol_times_fail. by rewrite set_errorCount_twice.
  - intros state this. destruct (String.eqb state "fail") eqn:Hstate.
    + apply String.eqb_eq in Hstate as ->. done.
    + by apply getSymbol_other.
  - intros runner this. unfold renders, getSuiteResult.
    destruct (runners (stats br) !! runner_cid runner) as [runner_results|]; [|done].
    destruct (runner_stats_specs runner_results !! getSpecHash (stats br) runner)
      as [spec|]; [|done].
    case_bool_decide; [done|]. simpl. done.
Qed.

(** ** The summary block *)

Lemma string_app_assoc (s1 s2 s3 : string) : (s1 +:+ s2) +:+ s3 = s1 +:+ s2 +:+ s3.
Proof.
  induction s1 as [|c s1 IH]; [done|].
  change (String c ((s1 +:+ s2) +:+ s3) = String c (s1 +:+ s2 +:+ s3)). by rewrite IH.
Qed.

Lemma string_app_nil_r (s : string) : s +:+ "" = s.
Proof.
  induction s as [|c s IH]; [done|].
  change (String c (s +:+ "") = String c s). by rewrite IH.
Qed.

Lemma getSummary_loop_displayed h br duration preface states : ∀ output,
  getSummary_loop h br duration preface states output true =
  output +:+ text_of (summary_line br preface "" <$> filter (λ entry, entry.2 ≠ 0) states).
Proof.
  induction states as [|[state testCount] rest IH]; intros output.
  - simpl. by rewrite string_app_nil_r.
  - cbn [getSummary_loop]. destruct (Z.eqb_spec testCount 0) as [->|Hne].
    + rewrite filter_cons_False by (simpl; lia). apply IH.
    + rewrite filter_cons_True by done. rewrite IH.
      cbn [negb fmap list_fmap text_of foldr]. unfold summary_line. cbn [fst snd].
      by rewrite !string_app_assoc.
Qed.

Lemma getSummary_loop_first h br duration preface states : ∀ output,
  getSummary_loop h br duration preface states output false =
  output +:+ text_of
    match filter (λ entry, entry.2 ≠ 0) states with
    | [] => []
    | first :: others =>
        summary_line br preface (" (" +:+ h duration +:+ ")") first
        :: (summary_line br preface "" <$> others)
    end.
Proof.
  induction states as [|[state testCount] rest IH]; intros output.
  - simpl. by rewrite string_app_nil_r.
  - cbn [getSummary_loop]. destruct (Z.eqb_spec testCount 0) as [->|Hne].
    + rewrite filter_cons_False by (simpl; lia). apply IH.
    + rewrite filter_cons_True by done. rewrite getSummary_loop_displayed.
      cbn [negb text_of foldr]. unfold summary_line. cbn [fst snd].
      by rewrite !string_app_assoc.
Qed.

(** C5: the summary is one line for each state whose count is not zero, in
    the order passing, pending, failing; the first of these lines, and no
    other, carries the humanized duration.  For the counters 3, 0, 1 these
    are two lines, the passing one with the duration and the failing one
    without. *)
Theorem summary_duration_on_first_line h br states duration preface :
  getSummary h br (Some states) duration (Some preface)
  = text_of (summary_lines h br states duration preface)
  ∧ length (summary_lines h br states duration preface) = length (nonzero states)
  ∧ summary_lines h br {| passing := 3; pending := 0; failing := 1 |} duration preface
    = [ summary_line br preface (" (" +:+ h duration +:+ ")") ("passing", 3);
        summary_line br preface "" ("failing", 1) ].
Proof.
  split_and!.
  - unfold getSummary. by rewrite getSummary_loop_first.
  - unfold summary_lines. destruct (nonzero states); [done|].
    simpl. by rewrite length_fmap.
  - done.
Qed.

(** ** The suite and test listing *)

Lemma getResultList_suites_unmarked br cid preface suites : ∀ output this,
  getResultList_suites br cid preface suites output this =
  render_suites br cid preface (unmarked suites) output this.
Proof.
  induction suites as [|[specUid spec] rest IH]; intros output this; [done|].
  cbn [getResultList_suites]. unfold unmarked.
  destruct (JS.starts_with before_all specUid) eqn:Hmark.
  - rewrite filter_cons_False by (simpl; congruence). apply IH.
  - rewrite filter_cons_True by done. cbn [render_suites negb].
    unfold render_suite, bind. cbn [fst snd].
    destruct (indent cid specUid this) as [[i|e] this1]; [|done].
    destruct (getResultList_tests _ _ _ _ _ _ this1) as [[out|e] this2]; [|done].
    apply IH.
Qed.

(** C6, as the code has it: a suite whose identifier begins with the
    "before all" marker is left out of the listing with all it contains
    (header line, test lines, closing line), and its tests do not advance
    the failure numbering; the listing is the blocks of the other suites,
    each in full, in the order of the tree. *)
Theorem before_all_suites_are_left_out br cid suites preface this :
  getResultList br cid suites preface this
  = render_suites br cid preface (unmarked suites) "" this
  ∧ getResultList br cid suites preface this
    = getResultList br cid (unmarked suites) preface this.
Proof.
  unfold getResultList. split.
  - apply getResultList_suites_unmarked.
  - rewrite !getResultList_suites_unmarked. f_equal.
    unfold unmarked. by rewrite list_filter_filter_l.
Qed.

(** ** The final summary *)

(** C8, as the code has it: [printSuitesSummary] prints nothing when
    exactly one worker ran; for any other number of workers, zero included,
    it prints the banner with "Number of specs: " and that number, followed
    by the epilogue of the base reporter.  It changes nothing but the
    console. *)
Theorem suites_summary_unless_one_runner br this :
  let specCount := size (runners (stats br)) in
  exec (printSuitesSummary br) this =
  if decide (specCount = 1%nat) then this
  else set_stdout (stdout this ++ [getSuitesSummary specCount] ++ epilogue br) this.
Proof.
  intros specCount. unfold printSuitesSummary. fold specCount.
  case_decide; [done|].
  unfold exec, bind, console_log, modify. cbn [fst snd stdout set_stdout].
  destruct this. unfold set_stdout. simpl. by rewrite <- app_assoc.
Qed.

(** ** What the text builders change *)

Lemma exec_indent cid uid this : exec (indent cid uid) this = this.
Proof. unfold exec, indent. by repeat case_match. Qed.

(** A method that preserves every stable observation changes the error
    counter and the context at most. *)
Lemma only_counter_and_context {A} (m : M A) this :
  (∀ X (f : SpecReporter → X), stable f → preserves f m) →
  set_context (context this) (set_errorCount (errorCount this) (exec m this)) = this.
Proof.
  intros Hm.
  pose proof (Hm _ indents stable_indents this).
  pose proof (Hm _ suiteIndents stable_suiteIndents this).
  pose proof (Hm _ results stable_results this).
  pose proof (Hm _ realtime stable_realtime this).
  pose proof (Hm _ specs ltac:(by split) this).
  pose proof (Hm _ stdout ltac:(by split) this).
  destruct (exec m this), this. simpl in *. by subst.
Qed.

(** C9, as the code has it: [getHeader] assigns the context's [cid] and
    [preface] and leaves every other field, the error counter included, as
    it was; [getSuiteHeader] and [getSummaryFooter] change nothing;
    [getTestResult] adds one to the error counter when it renders a failed
    test and changes nothing otherwise; [getResultList] and
    [getSuiteResult] change the error counter and the context at most, and
    none of them prints. *)
Theorem text_builders_effects h br :
  (∀ runner this, exec (getHeader br runner) this = after_getHeader br runner this)
  ∧ (∀ runner this, errorCount (exec (getHeader br runner) this) = errorCount this)
  ∧ (∀ suite this, exec (getSuiteHeader suite) this = this)
  ∧ (∀ runner this, exec (getSummaryFooter h br runner) this = this)
  ∧ (∀ cid uid test preface this,
       exec (getTestResult br cid uid test preface) this =
       match eval (indent cid uid) this with
       | JS.Normal _ =>
           if String.eqb (test_state test) "fail"
           then set_errorCount (errorCount this + 1) this else this
       | JS.Throw _ => this
       end)
  ∧ (∀ cid suites preface this,
       set_context (context this) (set_errorCount (errorCount this)
         (exec (getResultList br cid suites preface) this)) = this)
  ∧ (∀ runner this,
       set_context (context this) (set_errorCount (errorCount this)
         (exec (getSuiteResult h br runner) this)) = this).
Proof.
  split_and!.
  - intros runner this. unfold getHeader, after_getHeader, exec, bind, modify.
    cbn [fst snd]. by destruct (runners (stats br) !! runner_cid runner).
  - intros runner this. unfold getHeader, exec, bind, modify.
    cbn [fst snd]. by destruct (runners (stats br) !! runner_cid runner).
  - intros suite this. unfold getSuiteHeader. rewrite exec_bind. cbn [eval get fst exec snd].
    rewrite exec_bind, exec_indent. by case_match.
  - intros runner this. unfold getSummaryFooter, exec, bind, get. cbn [fst snd].
    by repeat case_match.
  - intros cid uid test preface this. unfold getTestResult.
    rewrite exec_bind, exec_indent. destruct (eval (indent cid uid) this); [|done].
    rewrite exec_bind.
    assert (exec (getSymbol br (test_state test)) this =
            if String.eqb (test_state test) "fail"
            then set_errorCount (errorCount this + 1) this else this) as ->.
    { destruct (String.eqb (test_state test) "fail") eqn:Hstate.
      - apply String.eqb_eq in Hstate as ->. done.
      - by apply getSymbol_other. }
    by case_match.
  - intros cid suites preface this. apply only_counter_and_context.
    intros X f Hf. by apply preserves_getResultList.
  - intros runner this. apply only_counter_and_context.
    intros X f Hf. by apply preserves_getSuiteResult.
Qed.

(** * The sample run, evaluated *)

Example getBrowserCombo_desktop :
  getBrowserCombo chrome false = "chrome 100 Windows"
  ∧ getBrowserCombo chrome true = "chrome (v100) on Windows".
Proof. by vm_compute. Qed.

Example getSuiteResult_sample :
  eval (getSuiteResult sample_humanizer one_worker worker)
       (run sample_humanizer
          [(one_worker, runner_start worker); (one_worker, suite_start login);
           (one_worker, test_pass (test_of "0-0" "accepts"));
           (one_worker, test_fail (test_of "0-0" "rejects"));
           (one_worker, suite_end login)]
          (constructor None))
  = JS.Normal (text_of
      [ "------------------------------------------------------------------"; String JS.LF "";
        "[chrome 100 Windows #0-0] Session ID: abc"; String JS.LF "";
        "[chrome 100 Windows #0-0] Spec: login.js"; String JS.LF "";
        "[chrome 100 Windows #0-0] Running: chrome (v100) on Windows"; String JS.LF "";
        "[chrome 100 Windows #0-0]"; String JS.LF "";
        "[chrome 100 Windows #0-0] login"; String JS.LF "";
        "[chrome 100 Windows #0-0]   v accepts"; String JS.LF "";
        "[chrome 100 Windows #0-0]   1) rejects"; String JS.LF "";
        "[chrome 100 Windows #0-0]"; String JS.LF "";
        "[chrome 100 Windows #0-0]"; String JS.LF "";
        "[chrome 100 Windows #0-0] 1 passing (90s)"; String JS.LF "";
        "[chrome 100 Windows #0-0] 1 failing"; String JS.LF "";
        "[chrome 100 Windows #0-0]"; String JS.LF "" ]).
Proof. vm_compute. reflexivity. Qed.

(** ** Instances of the theorems above *)

Lemma results_count_test_events_witness :
  count_events (is_runner_start (runner_cid worker)) sample_events = 0
  ∧ results (run sample_humanizer ((one_worker, runner_start worker) :: sample_events)
               (constructor serial)) !! "0-0"
    = Some {| passing := 2; pending := 1; failing := 1 |}.
Proof.
  split; [reflexivity|].
  exact (results_count_test_events sample_humanizer one_worker worker sample_events
           (constructor serial) eq_refl).
Defined.

Lemma indent_depth_is_a_counter_witness :
  let nest := [(one_worker, login); (one_worker, form)] in
  let ends := [(one_worker, hook); (one_worker, hook)] in
  let started :=
    run sample_humanizer ((one_worker, runner_start worker) :: suite_starts nest)
      (constructor None) in
  let ended := run sample_humanizer (suite_ends ends) started in
  indents started !! "0-0" = Some (JS.Num 2)
  ∧ indents ended !! "0-0" = Some (JS.Num 0)
  ∧ stored_depth ended "0-0" "login1" = Some (JS.Num 1)
  ∧ stored_depth ended "0-0" "form2" = Some (JS.Num 2).
Proof.
  intros nest ends started ended.
  assert (of_worker (runner_cid worker) nest) as Hnest by (repeat constructor).
  assert (of_worker (runner_cid worker) ends) as Hends by (repeat constructor).
  assert (NoDup ((λ bs : BaseReporter * Suite, suite_uid bs.2) <$> nest)) as Hnd.
  { repeat constructor; rewrite ?list_elem_of_In; simpl; intuition discriminate. }
  destruct (indent_depth_is_a_counter sample_humanizer one_worker worker nest ends
              (constructor None) Hnest Hends eq_refl Hnd)
    as (Hstarted & Hended & _ & Hstored).
  split_and!.
  - exact Hstarted.
  - exact Hended.
  - exact (proj2 (Hstored 0%nat (one_worker, login) eq_refl)).
  - exact (proj2 (Hstored 1%nat (one_worker, form) eq_refl)).
Defined.

Lemma indent_units_witness :
  let this :=
    set_suiteIndents {[ "0-0" := {[ "login1" := JS.Num 1; "form2" := JS.Num 3 ]} ]}
      (constructor None) in
  stored_depth this "0-0" "form2" = Some (JS.Num 3)
  ∧ 0 ≤ 3 < 2 ^ 32
  ∧ indent "0-0" "form2" this = (JS.Normal "        ", this).
Proof.
  intros this.
  assert (stored_depth this "0-0" "form2" = Some (JS.Num 3)) as Hd by (vm_compute; reflexivity).
  assert (0 ≤ 3 < 2 ^ 32) as Hrange by lia.
  split; [exact Hd | split; [exact Hrange |]].
  exact (proj1 (indent_units this "0-0" "form2" 3 Hd Hrange)).
Defined.

(** ** Where the code departs from the specification *)

(** A "before all" suite that holds a passed test: the listing is empty,
    although the test, rendered, is a line of its own. *)
Lemma before_all_suite_tests_not_rendered :
  let this :=
    run sample_humanizer
      [(one_worker, runner_start worker); (one_worker, suite_start hook);
       (one_worker, test_pass hook_test); (one_worker, suite_end hook)]
      (constructor None) in
  JS.starts_with before_all hook_uid = true
  ∧ tests hook_suite = [("sets up1", hook_test)]
  ∧ eval (getResultList one_worker "0-0" [(hook_uid, hook_suite)] "[chrome 100 Windows #0-0]")
         this
    = JS.Normal ""
  ∧ eval (getResultList_tests one_worker "0-0" hook_uid "[chrome 100 Windows #0-0]"
            (tests hook_suite) "") this
    = JS.Normal ("[chrome 100 Windows #0-0]   v sets up" +:+ String JS.LF "").
Proof. vm_compute. done. Qed.

(** C7: for the mobile capabilities without a [version], the template
    literal of the verbose form prints the missing version as the text
    "undefined"; the result is not the descriptor with an empty substring
    in its place. *)
Theorem mobile_verbose_prints_undefined :
  getBrowserCombo iphone true = "iPhone on iOS 15 undefined executing Safari"
  ∧ getBrowserCombo iphone true ≠ "iPhone on iOS 15  executing Safari"
  ∧ getBrowserCombo iphone false = "iPhone iOS 15 undefined".
Proof. by vm_compute. Qed.

(** No worker ran: the final summary is printed, with the count 0. *)
Lemma suites_summary_printed_for_no_runner :
  size (runners (stats no_worker)) = 0%nat
  ∧ stdout (constructor None) = []
  ∧ stdout (exec (printSuitesSummary no_worker) (constructor None))
    = [ text_of [ String JS.LF ""; String JS.LF "";
                  "=================================================================="; String JS.LF "";
                  "Number of specs: 0" ] ].
Proof. vm_compute. done. Qed.

(** Building the header of a worker writes the context. *)
Lemma getHeader_writes_context :
  let this := constructor None in
  let this' := exec (getHeader one_worker worker) this in
  context_cid (context this) = None
  ∧ context_preface (context this) = None
  ∧ context_cid (context this') = Some "0-0"
  ∧ context_preface (context this') = Some "[chrome 100 Windows #0-0]"
  ∧ this' ≠ this.
Proof.
  intros this this'.
  assert (context_cid (context this') = Some "0-0") as Hcid by (vm_compute; reflexivity).
  split_and!; [done | done | done | by vm_compute |].
  intros Heq. rewrite Heq in Hcid. discriminate.
Qed.

(** * Further properties of the reporter *)

(** ** Strings *)

Lemma string_app_eq_nil (s1 s2 : string) : s1 +:+ s2 = "" → s1 = "" ∧ s2 = "".
Proof. destruct s1; [done|]. intros H. discriminate H. Qed.

Lemma prefix_spec (p : string) : ∀ s, String.prefix p s = true ↔ ∃ b, s = p +:+ b.
Proof.
  induction p as [|c p IH]; intros s.
  - split; [intros _; by exists s | by destruct s].
  - destruct s as [|c' s]; simpl.
    + split; [done | intros [b Hb]; discriminate Hb].
    + destruct (Ascii.ascii_dec c c') as [->|Hne].
      * rewrite IH. split; intros [b Hb]; exists b.
        -- by rewrite Hb.
        -- by injection Hb.
      * split; [done | intros [b Hb]; injection Hb; congruence].
Qed.

(** [indexOf] finds the pattern exactly in the strings that contain it. *)
Lemma index_of_spec (p s : string) :
  is_Some (JS.index_of p s) ↔ ∃ a b, s = a +:+ p +:+ b.
Proof.
  split.
  - induction s as [|c s IH]; cbn [JS.index_of].
    + destruct (String.prefix p "") eqn:Hp; [|by intros [? ?]].
      intros _. apply prefix_spec in Hp as [b Hb]. by exists "", b.
    + destruct (String.prefix p (String c s)) eqn:Hp.
      * intros _. apply prefix_spec in Hp as [b Hb]. by exists "", b.
      * rewrite fmap_is_Some. intros (a & b & ->)%IH. by exists (String c a), b.
  - intros (a & b & ->). induction a as [|c a IH].
    + assert (String.prefix p ("" +:+ p +:+ b) = true) as Hp
        by (apply prefix_spec; by exists b).
      change ("" +:+ p +:+ b) with (p +:+ b) in *.
      destruct (p +:+ b); cbn [JS.index_of]; by rewrite Hp.
    + change (String c a +:+ p +:+ b) with (String c (a +:+ p +:+ b)).
      cbn [JS.index_of]. case_match; [done|]. by rewrite fmap_is_Some.
Qed.

(** ** The job link *)

(** X1: [getJobLink] emits a link exactly when the worker's configured host
    contains "saucelabs.com"; the link is the trimmed preface on a line of
    its own and the "Check out job at" line with the session id.  A missing
    or empty host gives the empty text. *)
Theorem job_link_iff_host_names_saucelabs results preface :
  (getJobLink results preface ≠ ""
   ↔ ∃ a b, config_host results = Some (a +:+ "saucelabs.com" +:+ b))
  ∧ (getJobLink results preface = ""
     ∨ getJobLink results preface = job_link results preface).
Proof.
  unfold getJobLink, job_link.
  destruct (config_host results) as [host|] eqn:Hhost; simpl.
  - destruct (String.eqb_spec host "") as [->|Hne]; simpl.
    + split; [|by left]. split; [done|].
      intros (a & b & [= H]). symmetry in H.
      apply string_app_eq_nil in H as [_ H]. discriminate H.
    + case_bool_decide as Hfound.
      * change ("" +:+ ?s) with s. rewrite string_app_assoc.
        split; [|by right]. split.
        -- intros _. apply index_of_spec in Hfound as (a & b & ->). by exists a, b.
        -- intros _ H. apply string_app_eq_nil in H as [_ H]. discriminate H.
      * split; [|by left]. split; [done|].
        intros (a & b & [= ->]). destruct Hfound. apply index_of_spec. by exists a, b.
  - split; [|by left]. split; [done | by intros (a & b & ?)].
Qed.

(** ** The summary block, when empty *)

(** X2: [getSummary] returns the empty text exactly when it is given no
    results record or a record whose three counts are zero, whatever the
    colour function and the humanizer return. *)
Theorem summary_empty_iff_nothing_counted h br states duration preface :
  getSummary h br states duration preface = ""
  ↔ match states with
    | Some r => passing r = 0 ∧ pending r = 0 ∧ failing r = 0
    | None => True
    end.
Proof.
  unfold getSummary. rewrite getSummary_loop_first.
  change ("" +:+ ?s) with s.
  destruct states as [[pass pend fail]|]; [|done]. cbn [entries passing pending failing].
  split.
  - intros Hempty.
    destruct (decide (pass = 0)) as [->|Hpass]; [|exfalso].
    2:{ rewrite filter_cons_True in Hempty by done. cbn [text_of foldr] in Hempty.
        apply string_app_eq_nil in Hempty as [Hline _]. unfold summary_line in Hline.
        apply string_app_eq_nil in Hline as [_ Hline]. discriminate Hline. }
    rewrite filter_cons_False in Hempty by (simpl; lia).
    destruct (decide (pend = 0)) as [->|Hpend]; [|exfalso].
    2:{ rewrite filter_cons_True in Hempty by done. cbn [text_of foldr] in Hempty.
        apply string_app_eq_nil in Hempty as [Hline _]. unfold summary_line in Hline.
        apply string_app_eq_nil in Hline as [_ Hline]. discriminate Hline. }
    rewrite filter_cons_False in Hempty by (simpl; lia).
    destruct (decide (fail = 0)) as [->|Hfail]; [done | exfalso].
    rewrite filter_cons_True in Hempty by done. cbn [text_of foldr] in Hempty.
    apply string_app_eq_nil in Hempty as [Hline _]. unfold summary_line in Hline.
    apply string_app_eq_nil in Hline as [_ Hline]. discriminate Hline.
  - intros (-> & -> & ->). done.
Qed.

(** ** The end of a worker *)

(** X3: the [runner:end] handler prints, in real-time mode, the very text
    of [getSummaryFooter] (whose code it repeats), and in batched mode the
    block of [getSuiteResult]; it fails as they fail. *)
Theorem runner_end_prints_footer_or_block h br runner this :
  on h br (runner_end runner) this =
  if realtime this then printSummaryFooter h br runner this
  else printSuiteResult h br runner this.
Proof.
  cbn [on]. unfold bind at 1. cbn [get]. destruct (realtime this) eqn:Hrt; [|done].
  cbn [negb]. unfold printSummaryFooter, getSummaryFooter, bind, get.
  destruct (runners (stats br) !! runner_cid runner) as [runner_results|]; [|done].
  destruct (context_runner (context this)) as [active|]; [|done].
  by destruct (runner_stats_specs runner_results !! getSpecHash (stats br) active).
Qed.

(** ** The tests of a suite *)

(** X4: the listing of a suite's tests passes over the tests whose state
    is the empty string: they give no line and do not advance the failure
    numbering, so the listing is that of the completed tests. *)
Theorem tests_without_state_are_skipped br cid specUid preface tests : ∀ output this,
  getResultList_tests br cid specUid preface tests output this
  = getResultList_tests br cid specUid preface (completed tests) output this.
Proof.
  unfold completed.
  induction tests as [|[testUid test] rest IH]; intros output this; [done|].
  cbn [getResultList_tests]. destruct (String.eqb_spec (test_state test) "") as [Hs|Hs].
  - rewrite filter_cons_False by (simpl; congruence). apply IH.
  - rewrite filter_cons_True by done. cbn [getResultList_tests].
    destruct (String.eqb_spec (test_state test) ""); [done|].
    unfold bind. destruct (getTestResult _ _ _ _ _ this) as [[line|e] this1]; [|done].
    apply IH.
Qed.

(** ** The header of a worker *)

(** X5: the text of [getHeader] and the [cid] it leaves in the context do
    not depend on the context it finds, nor does the preface when the
    statistics know the worker (otherwise [getHeader] throws and the
    preface stays); building the header a second time changes nothing
    more. *)
Theorem header_overwrites_context br runner this :
  (∀ c, eval (getHeader br runner) (set_context c this) = eval (getHeader br runner) this)
  ∧ (∀ c, context_cid (context (exec (getHeader br runner) (set_context c this)))
          = context_cid (context (exec (getHeader br runner) this)))
  ∧ (∀ c, context_preface (context (exec (getHeader br runner) (set_context c this)))
          = match runners (stats br) !! runner_cid runner with
            | Some _ => context_preface (context (exec (getHeader br runner) this))
            | None => context_preface c
            end)
  ∧ exec (getHeader br runner) (exec (getHeader br runner) this)
    = exec (getHeader br runner) this.
Proof.
  unfold getHeader, eval, exec, bind, modify, get.
  destruct (runners (stats br) !! runner_cid runner) as [runner_results|]; done.
Qed.

(** ** The two modes *)

(** X6: in batched mode the handlers of [runner:start], of the suite
    events and of the test events print nothing and touch neither the
    context nor the error counter: all output waits for [runner:end]. *)
Theorem batched_mode_defers_output h br e this :
  realtime this = false →
  before_the_end e = true →
  stdout (exec (on h br e) this) = stdout this
  ∧ context (exec (on h br e) this) = context this
  ∧ errorCount (exec (on h br e) this) = errorCount this.
Proof.
  intros Hrt He. unfold exec.
  destruct e as [runner|suite|test|test|test|suite|runner|]; try discriminate He;
    cbn [on]; unfold bind, modify, get, count, report_test, ret, throw;
    cbn; rewrite ?Hrt; cbn;
    repeat (case_match; cbn; rewrite ?Hrt; cbn).
  all: simplify_eq; cbn in *; first [congruence | done].
Qed.

(** X7: in real-time mode a [suite:end] clears the active suite and does
    not restore an enclosing one, so a test event that follows it (a test
    of the enclosing suite, say) is counted and then fails with a TypeError
    in [printTestResult], printing nothing. *)
Theorem realtime_test_after_suite_end_throws h br br' suite test r this :
  realtime this = true →
  results this !! test_cid test = Some r →
  let ended := exec (on h br (suite_end suite)) this in
  let counted g := set_results (<[test_cid test := g r]> (results ended)) ended in
  context_suite (context ended) = None
  ∧ on h br' (test_pass test) ended = (JS.Throw JS.TypeError, counted incr_passing)
  ∧ on h br' (test_pending test) ended = (JS.Throw JS.TypeError, counted incr_pending)
  ∧ on h br' (test_fail test) ended = (JS.Throw JS.TypeError, counted incr_failing).
Proof.
  intros Hrt Hr ended counted.
  assert (ended =
          set_context (set_context_suite None (context this))
            (set_indents
               (<[suite_cid suite := JS.decr (JS.to_number (indents this !! suite_cid suite))]>
                  (indents this)) this)) as Hended.
  { unfold ended, exec. cbn [on]. unfold bind, modify, get. cbn. by rewrite Hrt. }
  assert (results ended !! test_cid test = Some r) as Hr' by (by rewrite Hended).
  assert (realtime ended = true) as Hrt' by (by rewrite Hended).
  assert (context_suite (context ended) = None) as Hsuite by (by rewrite Hended).
  split; [done|].
  unfold counted. clearbody ended.
  split_and!; cbn [on]; unfold bind, count, report_test, get; rewrite Hr'; cbn;
    rewrite Hrt', Hsuite; done.
Qed.

(** ** The workers' records *)

Lemma stable_specs : stable specs.
Proof. by split. Qed.

Lemma silent_specs : silent specs.
Proof. done. Qed.

Lemma on_runner_start_specs h br runner this :
  specs (exec (on h br (runner_start runner)) this) =
  <[runner_cid runner := runner_specs runner]> (specs this).
Proof. unfold exec. simpl. unfold bind, modify, get. simpl. by case_match. Qed.

(** Only [runner:start] writes the spec lists. *)
Lemma on_specs h br e :
  match e with runner_start _ => false | _ => true end = true →
  preserves specs (on h br e).
Proof.
  pose proof stable_specs. pose proof silent_specs.
  destruct e; intros [=]; cbn [on].
  - apply preserves_bind; [apply preserves_get | intros before].
    apply preserves_bind; [frame | intros _].
    case_match; [|apply preserves_throw].
    apply preserves_bind; [frame | intros _].
    apply preserves_bind; [apply preserves_get | intros this].
    case_match; [|apply preserves_ret].
    apply preserves_bind; [frame | intros _].
    apply preserves_bind; [| intros _; by apply preserves_printSuiteHeader].
    case_match; [|apply preserves_ret].
    apply preserves_bind; [by apply preserves_printHeader | intros _; frame].
  - apply preserves_bind; [| intros _; by apply preserves_report_test].
    intros this. unfold exec, count. by case_match.
  - apply preserves_bind; [| intros _; by apply preserves_report_test].
    intros this. unfold exec, count. by case_match.
  - apply preserves_bind; [| intros _; by apply preserves_report_test].
    intros this. unfold exec, count. by case_match.
  - frame.
  - by apply preserves_on_runner_end.
  - by apply preserves_printSuitesSummary.
Qed.

(** An event that names another worker leaves the record of this one. *)
Lemma on_record_of h br e cid this :
  event_cid e ≠ Some cid →
  record_of cid (exec (on h br e) this) = record_of cid this.
Proof.
  intros He. unfold record_of.
  repeat (apply pair_equal_spec; split).
  - destruct e as [runner|suite|test|test|test|suite|runner|];
      try (by rewrite on_other_results by done).
    + rewrite on_runner_start_results, lookup_insert_ne; [done | naive_solver].
    + cbn [on]. rewrite on_test_results.
      case_match; [rewrite lookup_insert_ne|]; [done | naive_solver | done].
    + cbn [on]. rewrite on_test_results.
      case_match; [rewrite lookup_insert_ne|]; [done | naive_solver | done].
    + cbn [on]. rewrite on_test_results.
      case_match; [rewrite lookup_insert_ne|]; [done | naive_solver | done].
  - destruct e as [runner|suite|test|test|test|suite|runner|];
      try (by rewrite (on_other_indents indents) by (done || apply stable_indents)).
    + rewrite on_runner_start_indents, lookup_insert_ne; [done | naive_solver].
    + rewrite on_suite_start_indents, lookup_insert_ne; [done | naive_solver].
    + rewrite on_suite_end_indents, lookup_insert_ne; [done | naive_solver].
  - destruct e as [runner|suite|test|test|test|suite|runner|];
      try (by rewrite (on_other_indents suiteIndents)
             by (done || apply stable_suiteIndents)).
    + rewrite on_runner_start_suiteIndents, lookup_insert_ne; [done | naive_solver].
    + rewrite on_suite_start_suiteIndents.
      case_match; [rewrite lookup_insert_ne|]; [done | naive_solver | done].
    + by rewrite on_suite_end_suiteIndents.
  - destruct e as [runner|suite|test|test|test|suite|runner|];
      try (by rewrite on_specs by done).
    rewrite on_runner_start_specs, lookup_insert_ne; [done | naive_solver].
Qed.

(** X8: the events of the other workers, in any number and order, change
    nothing of what the reporter holds for a worker: its counters, its
    depth counter, the depths of its suites and its spec list. *)
Theorem workers_are_isolated h cid events : ∀ this,
  Forall (λ be, event_cid be.2 ≠ Some cid) events →
  record_of cid (run h events this) = record_of cid this.
Proof.
  induction events as [|[br e] rest IH]; intros this Hevents; [done|].
  apply Forall_cons in Hevents as [He Hrest]. cbn [run].
  rewrite IH by done. by apply on_record_of.
Qed.



(** ** The failure numbering of the listing *)

Lemma indent_set_errorCount cid uid v this :
  indent cid uid (set_errorCount v this)
  = (eval (indent cid uid) this, set_errorCount v this).
Proof. unfold eval, indent. cbn [suiteIndents set_errorCount]. by repeat case_match. Qed.

Lemma eval_indent_set_errorCount cid uid v this :
  eval (indent cid uid) (set_errorCount v this) = eval (indent cid uid) this.
Proof. unfold eval at 1. by rewrite indent_set_errorCount. Qed.

Lemma indent_set_context cid uid c this :
  eval (indent cid uid) (set_context c this) = eval (indent cid uid) this.
Proof. unfold eval, indent. cbn [suiteIndents set_context]. by repeat case_match. Qed.

Lemma indent_pure cid uid this : indent cid uid this = (eval (indent cid uid) this, this).
Proof. unfold eval, indent. by repeat case_match. Qed.

Lemma set_errorCount_same this : set_errorCount (errorCount this) this = this.
Proof. by destruct this. Qed.

Lemma failed_cons testUid test rest :
  failed ((testUid, test) :: rest)
  = (if String.eqb (test_state test) "fail" then 1 else 0) + failed rest.
Proof.
  unfold failed. destruct (String.eqb_spec (test_state test) "fail") as [Hs|Hs].
  - rewrite filter_cons_True by done. cbn [length]. lia.
  - by rewrite filter_cons_False by done.
Qed.

(** The tests of a suite whose indent is defined are all rendered, and the
    error counter advances by the number of the failed ones. *)
Lemma getResultList_tests_counts br cid specUid preface i tests : ∀ output this,
  eval (indent cid specUid) this = JS.Normal i →
  ∃ text,
    getResultList_tests br cid specUid preface tests output this
    = (JS.Normal text, set_errorCount (errorCount this + failed tests) this).
Proof.
  induction tests as [|[testUid test] rest IH]; intros output this Hi.
  - exists output. cbn [getResultList_tests]. unfold ret, failed. cbn.
    by rewrite Z.add_0_r, set_errorCount_same.
  - cbn [getResultList_tests]. rewrite failed_cons.
    destruct (String.eqb_spec (test_state test) "") as [Hs|Hs].
    + rewrite Hs. cbn. by apply IH.
    + unfold bind at 1. unfold getTestResult. unfold bind at 1.
      rewrite indent_pure, Hi. unfold bind at 1.
      destruct (String.eqb (test_state test) "fail") eqn:Hfail.
      * apply String.eqb_eq in Hfail. rewrite Hfail, getSymbol_fail. cbn [ret].
        edestruct (IH (((output +:+ ((("" +:+ JS.to_string (Some preface)) +:+ "   " +:+ i)
                          +:+ color br (getColor "fail")
                                (JS.of_Z (errorCount this + 1) +:+ ")"))
                          +:+ " " +:+ test_title test)) +:+ String JS.LF "")
                     (set_errorCount (errorCount this + 1) this)) as [text Htext].
        { by rewrite eval_indent_set_errorCount. }
        exists text. rewrite Htext. f_equal. cbn [errorCount set_errorCount].
        rewrite set_errorCount_twice. f_equal. lia.
      * destruct (getSymbol br (test_state test) this) as [c this1] eqn:Hsym.
        assert (this1 = this) as ->.
        { pose proof (getSymbol_other br _ this Hfail) as Hother.
          unfold exec in Hother. by rewrite Hsym in Hother. }
        assert (∃ symbol, c = JS.Normal symbol) as [symbol ->].
        { unfold getSymbol in Hsym. rewrite Hfail in Hsym.
          repeat case_match; injection Hsym as <-; by eexists. }
        cbn [ret]. edestruct IH as [text Htext]; [done|].
        exists text. rewrite Htext. by rewrite Z.add_0_l.
Qed.

Lemma getResultList_suites_counts br cid preface suites : ∀ output this,
  indents_fine this cid suites →
  ∃ text,
    getResultList_suites br cid preface suites output this
    = (JS.Normal text, set_errorCount (errorCount this + failed_in suites) this).
Proof.
  unfold indents_fine, unmarked.
  induction suites as [|[specUid spec] rest IH]; intros output this Hfine.
  - exists output. cbn. unfold ret. by rewrite Z.add_0_r, set_errorCount_same.
  - cbn [getResultList_suites failed_in].
    destruct (JS.starts_with before_all specUid) eqn:Hmark.
    + rewrite filter_cons_False in Hfine by (simpl; congruence).
      rewrite Z.add_0_l. by apply IH.
    + rewrite filter_cons_True in Hfine by done.
      apply Forall_cons in Hfine as [[i Hi] Hrest]. cbn [fst] in Hi.
      unfold bind at 1. rewrite indent_pure, Hi. unfold bind at 1.
      edestruct (getResultList_tests_counts br cid specUid preface i (tests spec))
        as [text Htext]; [done|].
      rewrite Htext.
      edestruct (IH (text +:+ JS.trim preface +:+ String JS.LF "")
                   (set_errorCount (errorCount this + failed (tests spec)) this))
        as [text' Htext'].
      { eapply Forall_impl; [exact Hrest|]. intros entry [j Hj]. exists j.
        by rewrite eval_indent_set_errorCount. }
      exists text'. rewrite Htext'. f_equal. cbn [errorCount set_errorCount].
      rewrite set_errorCount_twice. f_equal. lia.
Qed.

(** X10: when [indent] is defined for the suites that are listed,
    [getResultList] returns a text, and the error counter has advanced by
    exactly the number of failed tests in those suites: the failure glyphs
    of a listing are numbered without gaps, and nothing else of the
    reporter changes. *)
Theorem listing_numbers_the_failed_tests br cid suites preface this :
  indents_fine this cid suites →
  ∃ text,
    getResultList br cid suites preface this
    = (JS.Normal text, set_errorCount (errorCount this + failed_in suites) this).
Proof. apply getResultList_suites_counts. Qed.

(** X11: when the statistics know the worker and its spec, the spec has
    suites and [indent] is defined for the listed ones, [getSuiteResult]
    returns the block, and leaves the error counter at the number of failed
    tests it listed, whatever the counter was before. *)
Theorem block_leaves_the_number_of_failed_tests h br runner runner_results spec this :
  runners (stats br) !! runner_cid runner = Some runner_results →
  runner_stats_specs runner_results !! getSpecHash (stats br) runner = Some spec →
  suites spec ≠ [] →
  indents_fine this (runner_cid runner) (suites spec) →
  errorCount (exec (getSuiteResult h br runner) this) = failed_in (suites spec)
  ∧ ∃ text, eval (getSuiteResult h br runner) this = JS.Normal text.
Proof.
  intros Hrunner Hspec Hsuites Hfine.
  assert (∃ text this', getSuiteResult h br runner this = (JS.Normal text, this')
                        ∧ errorCount this' = failed_in (suites spec))
    as (text & this' & Heq & Hcount);
    [| unfold exec, eval; rewrite Heq; split; [done | by eexists]].
  unfold getSuiteResult. rewrite Hrunner, Hspec.
  rewrite bool_decide_eq_false_2 by done.
  unfold bind at 1. cbn [modify]. unfold bind at 1.
  destruct (getHeader br runner (set_errorCount 0 this)) as [c this1] eqn:Hheader.
  assert (∃ header ctx, c = JS.Normal header ∧ this1 = set_context ctx (set_errorCount 0 this))
    as (header & ctx & -> & ->).
  { unfold getHeader, bind, modify, get in Hheader. rewrite Hrunner in Hheader.
    cbn in Hheader. injection Hheader as <- <-. by eexists _, _. }
  unfold bind at 1.
  edestruct (getResultList_suites_counts br (runner_cid runner)
               ("[" +:+ getBrowserCombo (capabilities runner_results) false +:+ " #"
                +:+ runner_cid runner +:+ "]") (suites spec) ""
               (set_context ctx (set_errorCount 0 this))) as [list Hlist].
  { eapply Forall_impl; [exact Hfine|]. intros entry [j Hj]. exists j.
    by rewrite indent_set_context, eval_indent_set_errorCount. }
  unfold getResultList. rewrite Hlist. unfold bind, get, ret.
  eexists _, _. split; [done|]. cbn. lia.
Qed.

(** ** Well-nested and unbalanced suite events *)

Lemma run_app h events1 events2 this :
  run h (events1 ++ events2) this = run h events2 (run h events1 this).
Proof.
  revert this. induction events1 as [|[br e] rest IH]; intros this; [done|].
  cbn [app run]. apply IH.
Qed.

Lemma on_depths_within h br e cid d bound this :
  0 ≤ d ≤ bound →
  depths_within cid d bound this →
  is_runner_start cid e = false →
  (is_suite_end cid e = true → 1 ≤ d) →
  depths_within cid
    (d + (if is_suite_start cid e then 1 else 0) - (if is_suite_end cid e then 1 else 0))
    (bound + 1) (exec (on h br e) this).
Proof.
  intros Hd (Hind & of_suite & Hsuite & Hdepths) Hstart Hend.
  assert (∀ uid n, of_suite !! uid = Some n → ∃ k, n = JS.Num k ∧ 1 ≤ k ≤ bound + 1)
    as Hdepths'.
  { intros uid n Hn. destruct (Hdepths uid n Hn) as (k & -> & Hk). exists k. split; [done|lia]. }
  unfold depths_within.
  destruct e as [runner|suite|test|test|test|suite|runner|];
    try (rewrite (on_other_indents indents), (on_other_indents suiteIndents)
           by (done || apply stable_indents || apply stable_suiteIndents);
         cbn [is_suite_start is_suite_end]; rewrite Z.add_0_r, Z.sub_0_r;
         split; [done | by exists of_suite]).
  - simpl in Hstart. apply bool_decide_eq_false in Hstart.
    rewrite on_runner_start_indents, on_runner_start_suiteIndents.
    rewrite !lookup_insert_ne by done. cbn [is_suite_start is_suite_end].
    rewrite Z.add_0_r, Z.sub_0_r. split; [done | by exists of_suite].
  - rewrite on_suite_start_indents, on_suite_start_suiteIndents.
    cbn [is_suite_start is_suite_end]. rewrite Z.sub_0_r.
    destruct (decide (suite_cid suite = cid)) as [Hcid|Hcid].
    + rewrite bool_decide_eq_true_2 by done. subst cid.
      rewrite Hsuite, Hind, !lookup_insert_eq. cbn [JS.to_number JS.incr].
      split; [done|]. eexists. split; [done|].
      intros uid n. destruct (decide (suite_uid suite = uid)) as [->|Hne].
      * rewrite lookup_insert_eq. intros [= <-]. eexists. split; [done | lia].
      * rewrite lookup_insert_ne by done. apply Hdepths'.
    + rewrite bool_decide_eq_false_2 by done. rewrite Z.add_0_r.
      split; [by rewrite lookup_insert_ne|].
      exists of_suite. split; [|done].
      case_match; [by rewrite lookup_insert_ne | done].
  - rewrite on_suite_end_indents, on_suite_end_suiteIndents.
    cbn [is_suite_start is_suite_end]. rewrite Z.add_0_r.
    destruct (decide (suite_cid suite = cid)) as [Hcid|Hcid].
    + rewrite bool_decide_eq_true_2 by done. subst cid.
      rewrite Hind, lookup_insert_eq. cbn [JS.to_number JS.decr].
      split; [done | by exists of_suite].
    + rewrite bool_decide_eq_false_2 by done. rewrite Z.sub_0_r.
      split; [by rewrite lookup_insert_ne | by exists of_suite].
Qed.

Lemma run_depths_within h cid events : ∀ this d bound,
  0 ≤ d ≤ bound →
  depths_within cid d bound this →
  well_nested cid d events = true →
  ∃ d', 0 ≤ d' ≤ bound + Z.of_nat (length events)
        ∧ depths_within cid d' (bound + Z.of_nat (length events)) (run h events this).
Proof.
  induction events as [|[br e] rest IH]; intros this d bound Hd Hinv Hnested.
  - exists d. cbn [length run]. rewrite Z.add_0_r. split; [lia | done].
  - cbn [well_nested] in Hnested. cbn [run].
    destruct (is_runner_start cid e) eqn:Hstart; [done|].
    pose proof (on_depths_within h br e cid d bound this Hd Hinv Hstart) as Hstep.
    destruct (is_suite_start cid e) eqn:Hsuite_start.
    + destruct (is_suite_end cid e) eqn:Hsuite_end.
      { destruct e; simpl in *; done. }
      rewrite Z.sub_0_r in Hstep.
      destruct (IH _ (d + 1) (bound + 1) ltac:(lia) (Hstep ltac:(done)) Hnested)
        as (d' & Hd' & Hfinal).
      exists d'. replace (bound + Z.of_nat (length ((br, e) :: rest)))
        with (bound + 1 + Z.of_nat (length rest)) by (cbn [length]; lia). done.
    + destruct (is_suite_end cid e) eqn:Hsuite_end.
      * apply andb_true_iff in Hnested as [Hopen%Z.leb_le Hnested].
        rewrite Z.add_0_r in Hstep.
        destruct (IH _ (d - 1) (bound + 1) ltac:(lia) (Hstep ltac:(done)) Hnested)
          as (d' & Hd' & Hfinal).
        exists d'. replace (bound + Z.of_nat (length ((br, e) :: rest)))
          with (bound + 1 + Z.of_nat (length rest)) by (cbn [length]; lia). done.
      * rewrite Z.add_0_r, Z.sub_0_r in Hstep.
        destruct (IH _ d (bound + 1) ltac:(lia) (Hstep ltac:(done)) Hnested)
          as (d' & Hd' & Hfinal).
        exists d'. replace (bound + Z.of_nat (length ((br, e) :: rest)))
          with (bound + 1 + Z.of_nat (length rest)) by (cbn [length]; lia). done.
Qed.

(** X12: after [runner:start] of a worker and any events in which its
    suite events are well nested (no [suite:end] without an open suite, no
    second [runner:start]), every depth recorded for its suites is a number
    from 1 to the number of events, and, for fewer than 2^32 events,
    [indent] returns a string for every suite id: it does not throw. *)
Theorem well_nested_run_keeps_indent_defined h br runner events this uid :
  well_nested (runner_cid runner) 0 events = true →
  Z.of_nat (length events) < 2 ^ 32 →
  let final := run h ((br, runner_start runner) :: events) this in
  (∀ n, stored_depth final (runner_cid runner) uid = Some n →
        ∃ k, n = JS.Num k ∧ 1 ≤ k ≤ Z.of_nat (length events))
  ∧ ∃ text, indent (runner_cid runner) uid final = (JS.Normal text, final).
Proof.
  intros Hnested Hlen final.
  assert (depths_within (runner_cid runner) 0 0 (exec (on h br (runner_start runner)) this))
    as Hinit.
  { split.
    - by rewrite on_runner_start_indents, lookup_insert_eq.
    - exists ∅. rewrite on_runner_start_suiteIndents, lookup_insert_eq. by split. }
  destruct (run_depths_within h _ events _ 0 0 ltac:(lia) Hinit Hnested)
    as (d' & Hd' & _ & of_suite & Hsuite & Hdepths).
  rewrite Z.add_0_l in Hdepths.
  change (run h events (exec (on h br (runner_start runner)) this)) with final in Hsuite.
  unfold stored_depth, indent. rewrite Hsuite. cbn [mbind option_bind].
  split; [apply Hdepths|].
  destruct (of_suite !! uid) as [n|] eqn:Hn; [|by eexists].
  destruct (Hdepths uid n Hn) as (k & -> & Hk).
  rewrite decide_False by (intros [= ->]; lia).
  unfold JS.array_join.
  destruct (Z.leb_spec 0 k); [|lia]. destruct (Z.ltb_spec k (2 ^ 32)); [|lia].
  by eexists.
Qed.

Lemma run_suite_ends_suiteIndents h ends : ∀ this,
  suiteIndents (run h (suite_ends ends) this) = suiteIndents this.
Proof.
  induction ends as [|[br s] rest IH]; intros this; [done|].
  cbn [suite_ends fmap list_fmap run fst snd]. fold (suite_ends rest).
  by rewrite IH, on_suite_end_suiteIndents.
Qed.

(** X13: a [suite:end] without an open suite takes the depth counter
    below zero.  After [runner:start] and two or more such events, the next
    [suite:start] records a negative depth for its suite, and [indent] for
    that suite raises a RangeError instead of returning a string. *)
Theorem unbalanced_suite_end_breaks_indent h br br' runner ends suite this :
  of_worker (runner_cid runner) ends →
  suite_cid suite = runner_cid runner →
  (2 ≤ length ends)%nat →
  let final :=
    run h ((br, runner_start runner) :: suite_ends ends ++ [(br', suite_start suite)]) this in
  stored_depth final (runner_cid runner) (suite_uid suite)
  = Some (JS.Num (1 - Z.of_nat (length ends)))
  ∧ indent (runner_cid runner) (suite_uid suite) final = (JS.Throw JS.RangeError, final).
Proof.
  intros Hends Hcid Hlen final.
  destruct (count_suite_ends _ ends Hends) as (He1 & He2 & He3).
  set (started := exec (on h br (runner_start runner)) this).
  set (ended := run h (suite_ends ends) started).
  assert (final = exec (on h br' (suite_start suite)) ended) as Hfinal.
  { unfold final. cbn [run]. by rewrite run_app. }
  assert (indents ended !! runner_cid runner = Some (JS.Num (- Z.of_nat (length ends))))
    as Hind.
  { unfold ended. rewrite (run_indents h _ _ _ 0); [do 2 f_equal; lia | | done].
    unfold started. by rewrite on_runner_start_indents, lookup_insert_eq. }
  assert (suiteIndents ended !! runner_cid runner = Some ∅) as Hsuite.
  { unfold ended. rewrite run_suite_ends_suiteIndents. unfold started.
    by rewrite on_runner_start_suiteIndents, lookup_insert_eq. }
  assert (suiteIndents final !! runner_cid runner
          = Some {[ suite_uid suite := JS.Num (1 - Z.of_nat (length ends)) ]}) as Hstored.
  { rewrite Hfinal, on_suite_start_suiteIndents, Hcid, Hsuite, Hind, lookup_insert_eq.
    cbn [JS.to_number JS.incr]. do 2 f_equal.
    rewrite insert_empty. do 2 f_equal. lia. }
  clearbody final. unfold stored_depth, indent. rewrite Hstored. cbn [mbind option_bind].
  rewrite lookup_singleton_eq. split; [done|].
  rewrite decide_False by (intros [= H0]; lia).
  unfold JS.array_join. destruct (Z.leb_spec 0 (1 - Z.of_nat (length ends))); [lia | done].
Qed.

(** ** A worker without suites *)

(** X14: in batched mode, [runner:end] for a worker whose spec has no
    suites builds the empty text, and still hands it to [console.log]: one
    empty text is printed, and nothing else of the reporter changes (the
    error counter is not reset). *)
Theorem runner_end_without_suites_prints_empty_text h br runner runner_results spec this :
  realtime this = false →
  runners (stats br) !! runner_cid runner = Some runner_results →
  runner_stats_specs runner_results !! getSpecHash (stats br) runner = Some spec →
  suites spec = [] →
  on h br (runner_end runner) this = (JS.Normal (), set_stdout (stdout this ++ [""]) this).
Proof.
  intros Hrt Hrunner Hspec Hsuites.
  cbn [on]. unfold bind at 1. cbn [get]. rewrite Hrt. cbn [negb].
  unfold printSuiteResult, getSuiteResult. rewrite Hrunner, Hspec.
  by rewrite bool_decide_eq_true_2.
Qed.

(** ** The failure list *)




(** ** The environment descriptor *)

(** X16: when the capabilities name an [os], the platform of both forms of
    the descriptor is the [os] and [os_version], and the generic [platform]
    and [platformName] fields are not read. *)
Theorem os_takes_precedence_over_platform caps verbose platform platformName :
  JS.truthy (Caps.os caps) = true →
  getBrowserCombo (with_platform platform platformName caps) verbose
  = getBrowserCombo caps verbose.
Proof. intros Hos. unfold getBrowserCombo. cbn. by rewrite Hos. Qed.

Lemma prefix_app (p b : string) : String.prefix p (p +:+ b) = true.
Proof. apply prefix_spec. by exists b. Qed.

Lemma string_length_app (s1 s2 : string) :
  String.length (s1 +:+ s2) = (String.length s1 + String.length s2)%nat.
Proof.
  induction s1 as [|c s1 IH]; [done|].
  change (String c s1 +:+ s2) with (String c (s1 +:+ s2)). cbn [String.length].
  by rewrite IH.
Qed.

Lemma substring_all (b : string) : ∀ n,
  (String.length b ≤ n)%nat → String.substring 0 n b = b.
Proof.
  induction b as [|c b IH]; intros n Hn; [by destruct n|].
  cbn [String.length] in Hn. destruct n as [|n]; [lia|].
  cbn [String.substring]. rewrite IH by lia. done.
Qed.

Lemma substring_app (p b : string) n :
  (String.length b ≤ n)%nat → String.substring (String.length p) n (p +:+ b) = b.
Proof.
  intros Hn. induction p as [|c p IH].
  - by apply substring_all.
  - change (String c p +:+ b) with (String c (p +:+ b)). cbn [String.length String.substring].
    apply IH.
Qed.

Lemma replace_first_prefix (p b : string) : JS.replace_first p "" (p +:+ b) = b.
Proof.
  assert (String.substring (String.length p) (String.length (p +:+ b)) (p +:+ b) = b) as Hsub.
  { apply substring_app. rewrite string_length_app. lia. }
  pose proof (prefix_app p b) as Hp.
  destruct (p +:+ b); cbn [JS.replace_first]; by rewrite Hp, Hsub.
Qed.

Lemma replace_first_absent (p r : string) : ∀ s,
  JS.index_of p s = None → JS.replace_first p r s = s.
Proof.
  induction s as [|c s IH]; cbn [JS.index_of JS.replace_first].
  - by case_match.
  - case_match; [done|]. rewrite fmap_None. intros Hs. by rewrite IH.
Qed.

(** X17: the descriptor of a mobile worker names the program without the
    storage prefix: an [app] that is "sauce-storage:" followed by a name
    (a name that does not contain the prefix again) reads as the name
    alone. *)
Theorem sauce_storage_prefix_is_stripped caps verbose name :
  JS.index_of "sauce-storage:" name = None →
  getBrowserCombo (with_app (Some ("sauce-storage:" +:+ name)) caps) verbose
  = getBrowserCombo (with_app (Some name) caps) verbose.
Proof.
  intros Hname. unfold getBrowserCombo. cbn [with_app Caps.deviceName Caps.browserName
    Caps.browser Caps.version Caps.platformVersion Caps.browser_version Caps.os
    Caps.os_version Caps.platform Caps.platformName Caps.app].
  assert (JS.replace_first "sauce-storage:" ""
            (JS.to_string (JS.or (Some ("sauce-storage:" +:+ name)) (Some "")))
          = JS.replace_first "sauce-storage:" "" (JS.to_string (JS.or (Some name) (Some ""))))
    as ->; [|done].
  change (JS.to_string (JS.or (Some ("sauce-storage:" +:+ name)) (Some "")))
    with ("sauce-storage:" +:+ name).
  rewrite replace_first_prefix.
  destruct name as [|c name]; [done|].
  change (JS.to_string (JS.or (Some (String c name)) (Some ""))) with (String c name).
  by rewrite replace_first_absent.
Qed.

(** ** Streaming in real-time mode *)

Ltac fields :=
  cbn [errorCount indents suiteIndents specs results context realtime stdout
       set_errorCount set_indents set_suiteIndents set_specs set_results set_context
       set_stdout context_runner context_suite context_headerPrinted context_cid
       context_preface set_context_runner set_context_suite set_context_headerPrinted
       set_context_cid set_context_preface fst snd JS.to_number JS.incr JS.to_string
       runner_cid runner_specs default id negb specs_to_string].

(** X18: in real-time mode, [runner:start], the first [suite:start] and a
    failed test of a worker known to the statistics print three texts: the
    header of the worker, the suite header (a top-level suite has no
    indent), and the test line, whose failure number continues from the
    error counter, which nothing resets in this mode. *)
Theorem realtime_streams_header_suite_and_test h br1 br2 br3 runner suite test
    runner_results this :
  realtime this = true →
  suite_cid suite = runner_cid runner →
  test_cid test = runner_cid runner →
  runners (stats br2) !! runner_cid runner = Some runner_results →
  let preface := preface_of runner_results (runner_cid runner) in
  let final :=
    run h [(br1, runner_start runner); (br2, suite_start suite); (br3, test_fail test)]
      this in
  stdout final
  = (stdout this
    ++ [ header_of runner_results runner;
         preface +:+ " " +:+ String JS.LF "" +:+ preface +:+ " " +:+ suite_title suite;
         preface +:+ "   "
         +:+ color br3 (Some "fail") (JS.of_Z (errorCount this + 1) +:+ ")")
         +:+ " " +:+ test_title test ])%list
  ∧ errorCount final = errorCount this + 1
  ∧ results final !! runner_cid runner = Some {| passing := 0; pending := 0; failing := 1 |}.
Proof.
  intros Hrt Hsuite Htest Hrunner preface final.
  unfold final, run, exec. cbn [on].
  repeat (progress
    (unfold printHeader, getHeader, console_log, printSuiteHeader, getSuiteHeader,
       printTestResult, getTestResult, report_test, count, bind, modify, get, ret, indent;
     fields;
     rewrite ?Hrt, ?Hrunner, ?Hsuite, ?Htest, ?lookup_insert_eq, ?getSymbol_fail;
     rewrite ?decide_False by (intros [=]);
     change (JS.array_join (JS.Num (0 + 1)) "    ") with (@JS.Normal string "");
     fields)).
  split_and!; [|done..].
  rewrite <- !app_assoc. f_equal. cbn [app].
  unfold header_of, preface, preface_of. cbn [set_state test_state test_title].
  by rewrite !string_app_assoc.
Qed.

(** ** Instances of the further properties *)

Lemma batched_mode_defers_output_witness :
  realtime listed = false
  ∧ before_the_end (test_fail (test_of "0-0" "rejects")) = true
  ∧ stdout (exec (on sample_humanizer one_worker (test_fail (test_of "0-0" "rejects")))
              listed) = stdout listed.
Proof.
  assert (realtime listed = false) as Hrt by (vm_compute; reflexivity).
  split; [exact Hrt | split; [reflexivity|]].
  exact (proj1 (batched_mode_defers_output sample_humanizer one_worker
                  (test_fail (test_of "0-0" "rejects")) listed Hrt eq_refl)).
Defined.

Lemma realtime_test_after_suite_end_throws_witness :
  let ended := exec (on sample_humanizer one_worker (suite_end login)) streaming in
  realtime streaming = true
  ∧ results streaming !! "0-0" = Some {| passing := 0; pending := 0; failing := 0 |}
  ∧ eval (on sample_humanizer one_worker (test_pass (test_of "0-0" "later"))) ended
    = JS.Throw JS.TypeError.
Proof.
  intros ended.
  assert (realtime streaming = true) as Hrt by (vm_compute; reflexivity).
  assert (results streaming !! test_cid (test_of "0-0" "later")
          = Some {| passing := 0; pending := 0; failing := 0 |}) as Hr
    by (vm_compute; reflexivity).
  split; [exact Hrt | split; [exact Hr|]].
  pose proof (realtime_test_after_suite_end_throws sample_humanizer one_worker one_worker
                login (test_of "0-0" "later") _ streaming Hrt Hr) as (_ & Hpass & _).
  unfold eval. fold ended in Hpass. by rewrite Hpass.
Defined.

Lemma workers_are_isolated_witness :
  Forall (λ be : BaseReporter * event, event_cid be.2 ≠ Some "0-0") other_events
  ∧ record_of "0-0" (run sample_humanizer other_events listed) = record_of "0-0" listed.
Proof.
  assert (Forall (λ be : BaseReporter * event, event_cid be.2 ≠ Some "0-0") other_events)
    as Hother by (repeat constructor; discriminate).
  split; [exact Hother|].
  exact (workers_are_isolated sample_humanizer "0-0" other_events listed Hother).
Defined.


Lemma sample_indents_fine : indents_fine listed "0-0" sample_suites.
Proof.
  unfold indents_fine. change (unmarked sample_suites) with [("login1", login_suite)].
  repeat constructor. exists "". vm_compute. reflexivity.
Defined.

Lemma listing_numbers_the_failed_tests_witness :
  indents_fine listed "0-0" sample_suites
  ∧ ∃ text,
      getResultList one_worker "0-0" sample_suites "[chrome 100 Windows #0-0]" listed
      = (JS.Normal text, set_errorCount (errorCount listed + 1) listed).
Proof.
  split; [exact sample_indents_fine|].
  exact (listing_numbers_the_failed_tests one_worker "0-0" sample_suites
           "[chrome 100 Windows #0-0]" listed sample_indents_fine).
Defined.

Lemma block_leaves_the_number_of_failed_tests_witness :
  runners (stats one_worker) !! "0-0" = Some sample_worker
  ∧ runner_stats_specs sample_worker !! getSpecHash (stats one_worker) worker
    = Some sample_spec
  ∧ suites sample_spec ≠ []
  ∧ indents_fine listed "0-0" sample_suites
  ∧ errorCount (exec (getSuiteResult sample_humanizer one_worker worker) listed) = 1.
Proof.
  assert (runners (stats one_worker) !! runner_cid worker = Some sample_worker) as Hrunner
    by (vm_compute; reflexivity).
  assert (runner_stats_specs sample_worker !! getSpecHash (stats one_worker) worker
          = Some sample_spec) as Hspec by (vm_compute; reflexivity).
  assert (suites sample_spec ≠ []) as Hsuites by discriminate.
  split_and!; [exact Hrunner | exact Hspec | exact Hsuites | exact sample_indents_fine |].
  exact (proj1 (block_leaves_the_number_of_failed_tests sample_humanizer one_worker worker
                  sample_worker sample_spec listed Hrunner Hspec Hsuites
                  sample_indents_fine)).
Defined.

Lemma well_nested_run_keeps_indent_defined_witness :
  well_nested "0-0" 0 nested_events = true
  ∧ Z.of_nat (length nested_events) < 2 ^ 32
  ∧ ∃ text,
      indent "0-0" "form2"
        (run sample_humanizer ((one_worker, runner_start worker) :: nested_events)
           (constructor None))
      = (JS.Normal text,
         run sample_humanizer ((one_worker, runner_start worker) :: nested_events)
           (constructor None)).
Proof.
  assert (Z.of_nat (length nested_events) < 2 ^ 32) as Hlen by reflexivity.
  split; [reflexivity | split; [exact Hlen|]].
  exact (proj2 (well_nested_run_keeps_indent_defined sample_humanizer one_worker worker
                  nested_events (constructor None) "form2" eq_refl Hlen)).
Defined.

Lemma unbalanced_suite_end_breaks_indent_witness :
  let ends := [(one_worker, login); (one_worker, login)] in
  let final :=
    run sample_humanizer
      ((one_worker, runner_start worker) :: suite_ends ends ++ [(one_worker, suite_start form)])
      (constructor None) in
  of_worker "0-0" ends
  ∧ (2 ≤ length ends)%nat
  ∧ stored_depth final "0-0" "form2" = Some (JS.Num (-1))
  ∧ indent "0-0" "form2" final = (JS.Throw JS.RangeError, final).
Proof.
  intros ends final.
  assert (of_worker (runner_cid worker) ends) as Hends by (repeat constructor).
  assert (2 ≤ length ends)%nat as Hlen by (simpl; lia).
  split; [exact Hends | split; [exact Hlen|]].
  exact (unbalanced_suite_end_breaks_indent sample_humanizer one_worker one_worker worker
           ends form (constructor None) Hends eq_refl Hlen).
Defined.

Lemma runner_end_without_suites_prints_empty_text_witness :
  realtime listed = false
  ∧ runners (stats idle) !! "0-0" = Some idle_worker
  ∧ stdout (exec (on sample_humanizer idle (runner_end worker)) listed) = [""].
Proof.
  assert (realtime listed = false) as Hrt by (vm_compute; reflexivity).
  assert (runners (stats idle) !! runner_cid worker = Some idle_worker) as Hrunner
    by (vm_compute; reflexivity).
  assert (runner_stats_specs idle_worker !! getSpecHash (stats idle) worker
          = Some {| suites := []; _duration := 0 |}) as Hspec by (vm_compute; reflexivity).
  split; [exact Hrt | split; [exact Hrunner|]].
  unfold exec.
  by rewrite (runner_end_without_suites_prints_empty_text sample_humanizer idle worker
                idle_worker _ listed Hrt Hrunner Hspec eq_refl).
Defined.

Lemma os_takes_precedence_over_platform_witness :
  JS.truthy (Caps.os iphone) = true
  ∧ getBrowserCombo (with_platform (Some "Android") (Some "Linux") iphone) false
    = getBrowserCombo iphone false.
Proof.
  split; [reflexivity|].
  exact (os_takes_precedence_over_platform iphone false (Some "Android") (Some "Linux")
           eq_refl).
Defined.

Lemma sauce_storage_prefix_is_stripped_witness :
  JS.index_of "sauce-storage:" "app.zip" = None
  ∧ getBrowserCombo (with_app (Some "sauce-storage:app.zip") iphone) true
    = getBrowserCombo (with_app (Some "app.zip") iphone) true.
Proof.
  split; [reflexivity|].
  exact (sauce_storage_prefix_is_stripped iphone true "app.zip" eq_refl).
Defined.

Lemma realtime_streams_header_suite_and_test_witness :
  realtime (constructor serial) = true
  ∧ runners (stats one_worker) !! "0-0" = Some sample_worker
  ∧ errorCount
      (run sample_humanizer
         [(one_worker, runner_start worker); (one_worker, suite_start login);
          (one_worker, test_fail (test_of "0-0" "rejects"))]
         (constructor serial)) = 1.
Proof.
  assert (runners (stats one_worker) !! runner_cid worker = Some sample_worker) as Hrunner
    by (vm_compute; reflexivity).
  split; [reflexivity | split; [exact Hrunner|]].
  exact (proj1 (proj2 (realtime_streams_header_suite_and_test sample_humanizer one_worker
                         one_worker one_worker worker login (test_of "0-0" "rejects")
                         sample_worker (constructor serial) eq_refl eq_refl eq_refl
                         Hrunner))).
Defined.
